(** * Ambient sound mixer: the sound registry, playback and presets

    A shallow embedding of [ambient_mixer_enhanced.py] (class
    [AmbientSoundMixer] with the data classes [Sound] and [Preset]) and the
    properties of its registry of sound slots, of playback through the
    pygame mixer, and of saving, applying and persisting presets.

    Python values are dynamically typed, so the values that travel between
    the registry, the presets and [presets.json] are modelled by one type
    of values, [pyval].  Dictionaries keep their insertion order and are
    association lists.  The effects dictionary of a sound is mutated in
    place and copied with [.copy()], so it lives in a store of objects and
    is held by reference.  Methods run in a monad of state and exceptions:
    an exception leaves the assignments made before it in place, as in
    Python.  A session is a sequence of method calls, of edits of the
    entries and of ticks of the clock, from the state [__init__] builds. *)

From Stdlib Require Import PrimFloat ZArith String Ascii List.
From stdpp Require Import base tactics option list strings.
Import ListNotations.

Local Open Scope string_scope.
Local Open Scope list_scope.

Set Warnings "-register-all".

(** ** Python values *)

(** A reference to a mutable object (a dict or a list) in the store. *)
Abbreviation loc := nat (only parsing).

Inductive pyval : Type :=
| PNone
| PBool (b : bool)
| PInt (z : Z)
| PFloat (f : float)
| PStr (s : string)
| PList (l : list pyval)
| PDict (d : list (string * pyval))
| PRef (r : loc).

(** ** Dictionaries with string keys, in insertion order *)

Section Dict.
Context {V : Type}.

(** [d.get(k)] *)
Fixpoint dict_get (k : string) (d : list (string * V)) : option V :=
  match d with
  | [] => None
  | (k', v) :: d' => if decide (k = k') then Some v else dict_get k d'
  end.

(** [k in d] *)
Definition dict_mem (k : string) (d : list (string * V)) : bool :=
  match dict_get k d with Some _ => true | None => false end.

(** [d[k] = v]: an existing key keeps its place, a new key goes last. *)
Fixpoint dict_set (k : string) (v : V) (d : list (string * V))
  : list (string * V) :=
  match d with
  | [] => [(k, v)]
  | (k', v') :: d' =>
      if decide (k = k') then (k, v) :: d' else (k', v') :: dict_set k v d'
  end.

(** [list(d.keys())] *)
Definition dict_keys (d : list (string * V)) : list string := map fst d.

(** In-place change of the object stored under [k] (the object is shared
    with the dictionary, so [d[k].attr = x] changes the entry). *)
Fixpoint dict_alter (f : V -> V) (k : string) (d : list (string * V))
  : list (string * V) :=
  match d with
  | [] => []
  | (k', v) :: d' =>
      if decide (k = k') then (k', f v) :: d' else (k', v) :: dict_alter f k d'
  end.
End Dict.

(** ** Strings: [str.split(',')] and [str.strip()]

    A string is a sequence of characters with code points below 256. *)

(** [str.isspace] on one character: the white space of Python below 256. *)
Definition isspace (c : ascii) : bool :=
  let n := nat_of_ascii c in
  ((9 <=? n) && (n <=? 13) || (28 <=? n) && (n <=? 32)
   || (n =? 133) || (n =? 160))%nat.

Fixpoint lstrip (s : string) : string :=
  match s with
  | String c s' => if isspace c then lstrip s' else s
  | EmptyString => EmptyString
  end.

(** Strips on the right; the result is empty when [s] is white space only. *)
Fixpoint rstrip (s : string) : string :=
  match s with
  | String c s' =>
      match rstrip s' with
      | EmptyString => if isspace c then EmptyString else String c EmptyString
      | r => String c r
      end
  | EmptyString => EmptyString
  end.

Definition strip (s : string) : string := rstrip (lstrip s).

(** [s.split(sep)] for a one-character separator: [cur] is the piece read
    so far, reversed. *)
Fixpoint split_go (sep : ascii) (cur : string) (s : string) : list string :=
  match s with
  | EmptyString => [String.rev cur]
  | String c s' =>
      if Ascii.eqb c sep then String.rev cur :: split_go sep EmptyString s'
      else split_go sep (String c cur) s'
  end.

Definition split (sep : ascii) (s : string) : list string :=
  split_go sep EmptyString s.

(** [bool(s)] for a string. *)
Definition nonempty (s : string) : bool :=
  match s with EmptyString => false | _ => true end.

(** [[tag.strip() for tag in s.split(',') if tag.strip()]] *)
Definition parse_tags (s : string) : list string :=
  filter (fun t => nonempty t = true) (map strip (split "," s)).

(** ** The data classes *)

(** [class Sound]: [volume] is declared a float and starts at [1.0];
    [load_preset] assigns to it whatever value the preset holds.  [channel]
    is the index of a mixer channel, [effects] refers to a dictionary in the
    store, and [button] is the label of the slot's button once the user
    interface exists. *)
Record Sound : Type := mkSound {
  filename : string;
  volume : pyval;
  channel : option nat;
  is_playing : bool;
  effects : loc;
  button : option string
}.

Definition with_volume (v : pyval) (snd : Sound) : Sound :=
  mkSound (filename snd) v (channel snd) (is_playing snd) (effects snd)
          (button snd).
Definition with_channel (c : option nat) (snd : Sound) : Sound :=
  mkSound (filename snd) (volume snd) c (is_playing snd) (effects snd)
          (button snd).
Definition with_is_playing (b : bool) (snd : Sound) : Sound :=
  mkSound (filename snd) (volume snd) (channel snd) b (effects snd)
          (button snd).
Definition with_effects (r : loc) (snd : Sound) : Sound :=
  mkSound (filename snd) (volume snd) (channel snd) (is_playing snd) r
          (button snd).
Definition with_button (b : option string) (snd : Sound) : Sound :=
  mkSound (filename snd) (volume snd) (channel snd) (is_playing snd)
          (effects snd) b.

(** [class Preset]: the constructor does not check the declared types, so a
    field holds whatever [presets.json] gave for it. *)
Record Preset : Type := mkPreset {
  name : pyval;
  settings : pyval;
  category : pyval;
  tags : pyval;
  created_at : pyval
}.

(** [preset.__dict__] *)
Definition Preset_dict (p : Preset) : pyval :=
  PDict [("name", name p); ("settings", settings p);
         ("category", category p); ("tags", tags p);
         ("created_at", created_at p)].

(** The constructor [Preset] called with the keyword arguments [d]: exactly
    the five fields must be given. *)
Definition Preset_kwargs (d : list (string * pyval)) : option Preset :=
  if (length d =? 5)%nat then
    n ← dict_get "name" d;
    s ← dict_get "settings" d;
    c ← dict_get "category" d;
    t ← dict_get "tags" d;
    a ← dict_get "created_at" d;
    Some (mkPreset n s c t a)
  else None.

(** ** The environment: pygame mixer, files, message boxes *)

(** A channel of the pygame mixer. *)
Record Channel : Type := mkChannel {
  busy : bool;
  chan_sound : option string;
  chan_loops : Z;
  chan_volume : pyval
}.

Definition idle_channel : Channel := mkChannel false None 0 (PFloat 1).

(** The content of [presets.json]: [JsonText doc] is a text that
    [json.load] reads as [doc] and that [json.dump] writes for [doc];
    [NotJson] is any text that [json.load] rejects. *)
Inductive file : Type :=
| NotJson (text : string)
| JsonText (doc : pyval).

Inductive event : Type :=
| showwarning (title message : string)
| showerror (title message : string)
| showinfo (title message : string)
| logger_error (message : string).

Inductive exn : Type :=
| KeyError (key : string)
| TypeError (msg : string)
| AttributeError (msg : string)
| FileNotFoundError (msg : string)
| JSONDecodeError (msg : string).

(** [str(e)] *)
Definition exn_str (e : exn) : string :=
  match e with
  | KeyError k => "'" ++ k ++ "'"
  | TypeError m | AttributeError m | FileNotFoundError m
  | JSONDecodeError m => m
  end.

(** ** The application state

    The attributes of [AmbientSoundMixer] that the methods use, followed by
    the world around it: the store of shared objects, the channels of the
    mixer, the sound files pygame can load, [presets.json], the clock and
    the messages shown or logged so far. *)
Record AmbientSoundMixer : Type := mkApp {
  sounds : list (string * Sound);
  presets : list (string * Preset);
  preset_name_var : string;
  category_var : string;
  tags_var : string;
  preset_var : string;
  preset_combo : list string;
  objects : list pyval;
  mixer : list Channel;
  sound_files : list string;
  presets_json : option file;
  clock : string;
  messages : list event
}.

Definition with_sounds (f : list (string * Sound) -> list (string * Sound))
    (s : AmbientSoundMixer) : AmbientSoundMixer :=
  mkApp (f (sounds s)) (presets s) (preset_name_var s) (category_var s)
        (tags_var s) (preset_var s) (preset_combo s) (objects s) (mixer s)
        (sound_files s) (presets_json s) (clock s) (messages s).
Definition with_presets (f : list (string * Preset) -> list (string * Preset))
    (s : AmbientSoundMixer) : AmbientSoundMixer :=
  mkApp (sounds s) (f (presets s)) (preset_name_var s) (category_var s)
        (tags_var s) (preset_var s) (preset_combo s) (objects s) (mixer s)
        (sound_files s) (presets_json s) (clock s) (messages s).
Definition with_entries (n c t p : string) (s : AmbientSoundMixer)
    : AmbientSoundMixer :=
  mkApp (sounds s) (presets s) n c t p (preset_combo s) (objects s) (mixer s)
        (sound_files s) (presets_json s) (clock s) (messages s).
Definition with_preset_combo (l : list string) (s : AmbientSoundMixer)
    : AmbientSoundMixer :=
  mkApp (sounds s) (presets s) (preset_name_var s) (category_var s)
        (tags_var s) (preset_var s) l (objects s) (mixer s)
        (sound_files s) (presets_json s) (clock s) (messages s).
Definition with_objects (f : list pyval -> list pyval)
    (s : AmbientSoundMixer) : AmbientSoundMixer :=
  mkApp (sounds s) (presets s) (preset_name_var s) (category_var s)
        (tags_var s) (preset_var s) (preset_combo s) (f (objects s)) (mixer s)
        (sound_files s) (presets_json s) (clock s) (messages s).
Definition with_mixer (f : list Channel -> list Channel)
    (s : AmbientSoundMixer) : AmbientSoundMixer :=
  mkApp (sounds s) (presets s) (preset_name_var s) (category_var s)
        (tags_var s) (preset_var s) (preset_combo s) (objects s) (f (mixer s))
        (sound_files s) (presets_json s) (clock s) (messages s).
Definition with_presets_json (f : option file) (s : AmbientSoundMixer)
    : AmbientSoundMixer :=
  mkApp (sounds s) (presets s) (preset_name_var s) (category_var s)
        (tags_var s) (preset_var s) (preset_combo s) (objects s) (mixer s)
        (sound_files s) f (clock s) (messages s).
Definition with_message (e : event) (s : AmbientSoundMixer)
    : AmbientSoundMixer :=
  mkApp (sounds s) (presets s) (preset_name_var s) (category_var s)
        (tags_var s) (preset_var s) (preset_combo s) (objects s) (mixer s)
        (sound_files s) (presets_json s) (clock s) (messages s ++ [e]).

(** ** The monad of methods: state and exceptions *)

Inductive result (A : Type) : Type :=
| Ok (a : A)
| Raise (e : exn).
Arguments Ok {A} a.
Arguments Raise {A} e.

Definition M (A : Type) : Type :=
  AmbientSoundMixer -> result A * AmbientSoundMixer.

Definition ret {A} (a : A) : M A := fun s => (Ok a, s).

Definition bind {A B} (m : M A) (k : A -> M B) : M B :=
  fun s => match m s with
           | (Ok a, s') => k a s'
           | (Raise e, s') => (Raise e, s')
           end.

Definition raise {A} (e : exn) : M A := fun s => (Raise e, s).

(** [try: m except ... as e: handler e] *)
Definition try_except {A} (m : M A) (handler : exn -> M A) : M A :=
  fun s => match m s with
           | (Ok a, s') => (Ok a, s')
           | (Raise e, s') => handler e s'
           end.

Definition gets {A} (f : AmbientSoundMixer -> A) : M A := fun s => (Ok (f s), s).
Definition modify (f : AmbientSoundMixer -> AmbientSoundMixer) : M unit :=
  fun s => (Ok tt, f s).

(** The state a method leaves behind, whether it returns or raises. *)
Definition exec {A} (m : M A) (s : AmbientSoundMixer) : AmbientSoundMixer :=
  snd (m s).

#[global] Instance M_ret : MRet M := @ret.
#[global] Instance M_bind : MBind M := fun A B k m => bind m k.

(** [for x in l: body x] *)
Fixpoint for_each {A} (l : list A) (body : A -> M unit) : M unit :=
  match l with
  | [] => ret tt
  | x :: l' => body x;; for_each l' body
  end.

(** [[f x for x in l]], where [f] may have effects or raise. *)
Fixpoint map_M {A B} (f : A -> M B) (l : list A) : M (list B) :=
  match l with
  | [] => ret []
  | x :: l' => y ← f x; ys ← map_M f l'; ret (y :: ys)
  end.

(** ** Objects in the store *)

(** The object a value denotes: a reference stands for the object stored
    at it. *)
Definition py_deref (h : list pyval) (v : pyval) : pyval :=
  match v with
  | PRef r => default PNone (h !! r)
  | _ => v
  end.

(** [bool(v)] *)
Definition truthy (h : list pyval) (v : pyval) : bool :=
  match py_deref h v with
  | PNone => false
  | PBool b => b
  | PInt z => negb (z =? 0)%Z
  | PFloat f => negb (PrimFloat.eqb f 0)
  | PStr s => nonempty s
  | PList l => match l with [] => false | _ => true end
  | PDict d => match d with [] => false | _ => true end
  | PRef _ => true
  end.

(** The value [json.dump] writes for [v], which is also the value that
    [==] compares: a reference is written as the object it refers to.  The
    objects of the store are effects dictionaries, whose entries are plain
    values. *)
Fixpoint json_of (h : list pyval) (v : pyval) : pyval :=
  match v with
  | PList l => PList (map (json_of h) l)
  | PDict d => PDict (map (fun kv => (fst kv, json_of h (snd kv))) d)
  | PRef r => default PNone (h !! r)
  | _ => v
  end.

(** A new object in the store. *)
Definition obj_alloc (o : pyval) : M loc :=
  fun s => (Ok (length (objects s)), with_objects (fun h => h ++ [o]) s).

(** [v[k]] for a string [k] *)
Definition py_getitem (v : pyval) (k : string) : M pyval :=
  h ← gets objects;
  match py_deref h v with
  | PDict d =>
      match dict_get k d with
      | Some x => ret x
      | None => raise (KeyError k)
      end
  | PList _ => raise (TypeError "list indices must be integers or slices, not str")
  | PStr _ => raise (TypeError "string indices must be integers, not 'str'")
  | _ => raise (TypeError "object is not subscriptable")
  end.

(** [v.items()] *)
Definition py_items (v : pyval) : M (list (string * pyval)) :=
  h ← gets objects;
  match py_deref h v with
  | PDict d => ret d
  | _ => raise (AttributeError "object has no attribute 'items'")
  end.

(** [v.copy()]: a new object with the entries of a dict or a list. *)
Definition py_copy (v : pyval) : M loc :=
  h ← gets objects;
  match py_deref h v with
  | PDict d => obj_alloc (PDict d)
  | PList l => obj_alloc (PList l)
  | _ => raise (AttributeError "object has no attribute 'copy'")
  end.

(** [obj[k] = v] for a string [k], where [obj] is the object at [r]. *)
Definition py_setitem (r : loc) (k : string) (v : pyval) : M unit :=
  h ← gets objects;
  match h !! r with
  | Some (PDict d) =>
      modify (with_objects (fun h => <[r := PDict (dict_set k v d)]> h))
  | Some (PList _) =>
      raise (TypeError "list indices must be integers or slices, not str")
  | _ => raise (TypeError "object does not support item assignment")
  end.

(** ** The pygame mixer *)

(** The numbers [Channel.set_volume] takes: a float, or an int (a bool is
    one) that converts to a float. *)
Definition is_number (v : pyval) : bool :=
  match v with
  | PFloat _ | PBool _ => true
  | PInt z => (Z.abs z <? 2 ^ 1024 - 2 ^ 970)%Z
  | _ => false
  end.

(** [pygame.mixer.Sound(file)]: the sound object is named by its file. *)
Definition mixer_Sound (f : string) : M string :=
  fs ← gets sound_files;
  if bool_decide (f ∈ fs) then ret f
  else raise (FileNotFoundError ("No file '" ++ f ++ "' found in working directory")).

(** The first channel of [chans], counted from [i], that is not busy. *)
Fixpoint first_idle (i : nat) (chans : list Channel) : option nat :=
  match chans with
  | [] => None
  | c :: chans' => if busy c then first_idle (S i) chans' else Some i
  end.

(** [pygame.mixer.find_channel()]: an inactive channel, or [None]. *)
Definition find_channel : M (option nat) :=
  chans ← gets mixer; ret (first_idle 0 chans).

(** [channel.play(sound, loops=loops)]: the channel starts to play, with
    its volume reset to full. *)
Definition Channel_play (c : nat) (sound_obj : string) (loops : Z) : M unit :=
  modify (with_mixer (fun chans =>
    <[c := mkChannel true (Some sound_obj) loops (PFloat 1)]> chans)).

(** [channel.set_volume(v)] *)
Definition Channel_set_volume (c : nat) (v : pyval) : M unit :=
  if is_number v then
    modify (with_mixer (alter (fun ch =>
      mkChannel (busy ch) (chan_sound ch) (chan_loops ch) v) c))
  else raise (TypeError "a real number is required").

(** [channel.stop()] *)
Definition Channel_stop (c : nat) : M unit :=
  modify (with_mixer (alter (fun ch =>
    mkChannel false None (chan_loops ch) (chan_volume ch)) c)).

(** ** Message boxes and the log *)

Definition message (e : event) : M unit := modify (with_message e).

(** ** Access to the registry *)

(** [self.sounds[sound_name]] *)
Definition sounds_getitem (sound_name : string) : M Sound :=
  reg ← gets sounds;
  match dict_get sound_name reg with
  | Some snd => ret snd
  | None => raise (KeyError sound_name)
  end.

(** An assignment to an attribute of the [Sound] registered as
    [sound_name]. *)
Definition sound_setattr (sound_name : string) (f : Sound -> Sound) : M unit :=
  modify (with_sounds (dict_alter f sound_name)).

(** [sound.button.configure(text=label)] *)
Definition button_configure (sound_name : string) (label : string) : M unit :=
  snd ← sounds_getitem sound_name;
  match button snd with
  | Some _ => sound_setattr sound_name (with_button (Some label))
  | None => raise (AttributeError "'NoneType' object has no attribute 'configure'")
  end.

(** ** The methods of [AmbientSoundMixer] *)

(** [Sound(filename)] with [__post_init__]: a new effects dictionary. *)
Definition Sound_init (f : string) : M Sound :=
  e ← obj_alloc (PDict [("reverb", PFloat 0); ("eq_low", PFloat 1);
                        ("eq_mid", PFloat 1); ("eq_high", PFloat 1)]);
  ret (mkSound f (PFloat 1) None false e None).

Definition initialize_sounds : M (list (string * Sound)) :=
  rain ← Sound_init "sounds/rain.mp3";
  coffee ← Sound_init "sounds/coffee_shop.mp3";
  noise ← Sound_init "sounds/white_noise.mp3";
  forest ← Sound_init "sounds/forest.mp3";
  ocean ← Sound_init "sounds/ocean.mp3";
  ret [("Rain", rain); ("Coffee Shop", coffee); ("White Noise", noise);
       ("Forest", forest); ("Ocean", ocean)].

(** A sound file is either one that pygame loads or missing. *)
Definition load_sounds : M unit :=
  reg ← gets sounds;
  for_each reg (fun kv =>
    fs ← gets sound_files;
    if bool_decide (filename (snd kv) ∈ fs) then ret tt
    else message (showwarning "File Missing"
                    ("Sound file not found: " ++ filename (snd kv)))).

Definition play_sound (sound_name : string) : M unit :=
  try_except
    (sound ← sounds_getitem sound_name;
     sound_obj ← mixer_Sound (filename sound);
     chan ← find_channel;
     match chan with
     | None => message (showwarning "Warning" "No available audio channels")
     | Some c =>
         Channel_play c sound_obj (-1);;
         Channel_set_volume c (volume sound);;
         sound_setattr sound_name (with_channel (Some c));;
         sound_setattr sound_name (with_is_playing true);;
         button_configure sound_name "Stop"
     end)
    (fun e => message (showerror "Playback Error"
                ("Error playing " ++ sound_name ++ ": " ++ exn_str e))).

Definition stop_sound (sound_name : string) : M unit :=
  try_except
    (sound ← sounds_getitem sound_name;
     match channel sound with
     | Some c => Channel_stop c
     | None => ret tt
     end;;
     sound_setattr sound_name (with_is_playing false);;
     button_configure sound_name "Play")
    (fun e => message (logger_error
                ("Error stopping " ++ sound_name ++ ": " ++ exn_str e))).

Definition toggle_sound (sound_name : string) : M unit :=
  sound ← sounds_getitem sound_name;
  if is_playing sound then stop_sound sound_name else play_sound sound_name.

Definition update_effect (sound_name effect : string) (value : float) : M unit :=
  sound ← sounds_getitem sound_name;
  py_setitem (effects sound) effect (PFloat value);;
  if is_playing sound then stop_sound sound_name;; play_sound sound_name
  else ret tt.

Definition on_volume_change (sound_name : string) (value : float) : M unit :=
  sound ← sounds_getitem sound_name;
  sound_setattr sound_name (with_volume (PFloat (value / 100)));;
  match channel sound with
  | Some c => Channel_set_volume c (PFloat (value / 100))
  | None => ret tt
  end.

Definition save_presets_to_file : M unit :=
  ps ← gets presets;
  h ← gets objects;
  modify (with_presets_json (Some (JsonText (PDict
    (map (fun kv => (fst kv, json_of h (Preset_dict (snd kv)))) ps))))).

Definition update_preset_list : M unit :=
  ps ← gets presets; modify (with_preset_combo (dict_keys ps)).

(** The entry of the preset data for one sound. *)
Definition sound_settings (kv : string * Sound) : M (string * pyval) :=
  e ← py_copy (PRef (effects (snd kv)));
  ret (fst kv, PDict [("volume", volume (snd kv));
                      ("is_playing", PBool (is_playing (snd kv)));
                      ("effects", PRef e)]).

Definition save_preset : M unit :=
  n ← gets preset_name_var;
  if nonempty n then
    reg ← gets sounds;
    preset_data ← map_M sound_settings reg;
    t ← gets tags_var;
    c ← gets category_var;
    now ← gets clock;
    modify (with_presets (dict_set n
      (mkPreset (PStr n) (PDict preset_data) (PStr c)
                (PList (map PStr (parse_tags t))) (PStr now))));;
    save_presets_to_file;;
    update_preset_list;;
    message (showinfo "Success" ("Preset '" ++ n ++ "' saved successfully"))
  else message (showwarning "Warning" "Please enter a preset name").

(** The body of the loop of [load_preset]. *)
Definition apply_settings (kv : string * pyval) : M unit :=
  let '(sound_name, entry) := kv in
  reg ← gets sounds;
  if dict_mem sound_name reg then
    v ← py_getitem entry "volume";
    sound_setattr sound_name (with_volume v);;
    e ← py_getitem entry "effects";
    r ← py_copy e;
    sound_setattr sound_name (with_effects r);;
    p ← py_getitem entry "is_playing";
    h ← gets objects;
    if truthy h p then play_sound sound_name else stop_sound sound_name
  else ret tt.

(** [self.presets[preset_name]] *)
Definition presets_getitem (preset_name : string) : M Preset :=
  ps ← gets presets;
  match dict_get preset_name ps with
  | Some p => ret p
  | None => raise (KeyError preset_name)
  end.

Definition load_preset : M unit :=
  preset_name ← gets preset_var;
  ps ← gets presets;
  if negb (nonempty preset_name) || negb (dict_mem preset_name ps) then ret tt
  else
    preset ← presets_getitem preset_name;
    items ← py_items (settings preset);
    for_each items apply_settings.

(** [json.load] of [presets.json] *)
Definition json_load_presets : M pyval :=
  f ← gets presets_json;
  match f with
  | None => raise (FileNotFoundError "presets.json")
  | Some (NotJson _) => raise (JSONDecodeError "Expecting value")
  | Some (JsonText doc) => ret doc
  end.

(** One item of the comprehension of [load_presets]: the name and the
    [Preset] built from the keyword arguments [preset_data]. *)
Definition preset_of_item (kv : string * pyval) : M (string * Preset) :=
  match snd kv with
  | PDict d =>
      match Preset_kwargs d with
      | Some p => ret (fst kv, p)
      | None => raise (TypeError "Preset.__init__() got unexpected or missing arguments")
      end
  | _ => raise (TypeError "argument after ** must be a mapping")
  end.

Definition load_presets : M (list (string * Preset)) :=
  try_except
    (data ← json_load_presets;
     items ← py_items data;
     map_M preset_of_item items)
    (fun e => match e with
              | FileNotFoundError _ | JSONDecodeError _ => ret []
              | _ => raise e
              end).

(** [setup_ui], as far as the methods see it: every slot gets its button,
    labelled "Play", the entries are empty and the combo box lists the
    presets. *)
Definition setup_ui : M unit :=
  reg ← gets sounds;
  for_each reg (fun kv =>
    sound_setattr (fst kv) (with_button (Some "Play")));;
  modify (with_entries "" "" "" "");;
  update_preset_list.

(** [__init__] *)
Definition init : M unit :=
  reg ← initialize_sounds;
  modify (with_sounds (fun _ => reg));;
  load_sounds;;
  ps ← load_presets;
  modify (with_presets (fun _ => ps));;
  setup_ui.

(** The world before [__init__]: the mixer has its eight channels, none
    busy; [files] are the sound files pygame can load, [pj] is
    [presets.json] and [now] the time the clock shows. *)
Definition boot (files : list string) (pj : option file) (now : string)
    : AmbientSoundMixer :=
  mkApp [] [] "" "" "" "" [] [] (replicate 8 idle_channel) files pj now [].

(** The application once [__init__] has run. *)
Definition started (files : list string) (pj : option file) (now : string)
    : AmbientSoundMixer :=
  exec init (boot files pj now).

(** The methods that change sounds or presets, as the user interface calls
    them. *)
Inductive method : Type :=
| Toggle (sound_name : string)
| Play (sound_name : string)
| Stop (sound_name : string)
| VolumeChange (sound_name : string) (value : float)
| UpdateEffect (sound_name effect : string) (value : float)
| SavePreset
| LoadPreset.

Definition call (m : method) : M unit :=
  match m with
  | Toggle n => toggle_sound n
  | Play n => play_sound n
  | Stop n => stop_sound n
  | VolumeChange n v => on_volume_change n v
  | UpdateEffect n e v => update_effect n e v
  | SavePreset => save_preset
  | LoadPreset => load_preset
  end.

(** The names of the sound slots. *)
Definition sound_names (s : AmbientSoundMixer) : list string :=
  dict_keys (sounds s).

Definition all_sound_files : list string :=
  ["sounds/rain.mp3"; "sounds/coffee_shop.mp3"; "sounds/white_noise.mp3";
   "sounds/forest.mp3"; "sounds/ocean.mp3"].

(** ** What a method leaves as it is *)

(** [m] takes every state to one related to it by [R], whether it returns
    or raises. *)
Definition stable {A} (R : relation AmbientSoundMixer) (m : M A) : Prop :=
  ∀ s, R s (exec m s).

(** The states that agree on the part [π]. *)
Definition same {X} (π : AmbientSoundMixer → X) : relation AmbientSoundMixer :=
  fun s s' => π s' = π s.

(** [m] never changes the part [π] of the state. *)
Abbreviation preserves π := (stable (same π)).

(** The store only grows: the objects of [s] are in [s'], at the same
    places and with the same entries. *)
Definition store_grows : relation AmbientSoundMixer :=
  fun s s' => objects s `prefix_of` objects s'.

(** [m] returns in every state: it never raises. *)
Definition returns {A} (m : M A) : Prop :=
  ∀ s, ∃ a s', m s = (Ok a, s').

(** ** Values without references *)

(** A value is plain when it holds no reference into the store, as every
    value read by [json.load] is. *)
Fixpoint plain (v : pyval) : bool :=
  match v with
  | PList l => forallb plain l
  | PDict d => forallb (fun kv => plain (snd kv)) d
  | PRef _ => false
  | _ => true
  end.



(** The field names of the record that [presets.json] holds for a preset. *)
Definition preset_fields : list string :=
  ["name"; "settings"; "category"; "tags"; "created_at"].

(** ** Well-formed states and presets *)

(** The objects that have a [copy] method: dictionaries and lists. *)
Definition is_container (o : pyval) : bool :=
  match o with
  | PDict _ | PList _ => true
  | _ => false
  end.

(** Every sound slot refers to an effects object that is in the store. *)
Definition effects_ok (s : AmbientSoundMixer) : bool :=
  forallb (fun kv => match objects s !! effects (snd kv) with
                     | Some o => is_container o
                     | None => false
                     end) (sounds s).

(** The preset data that [save_preset] builds for the slots [reg] when the
    copies of their effects go to the places [r], [r + 1], ... of the
    store. *)
Fixpoint settings_from (r : loc) (reg : list (string * Sound))
    : list (string * pyval) :=
  match reg with
  | [] => []
  | kv :: reg' =>
      (fst kv, PDict [("volume", volume (snd kv));
                      ("is_playing", PBool (is_playing (snd kv)));
                      ("effects", PRef r)])
      :: settings_from (S r) reg'
  end.

(** A settings entry that [load_preset] applies without raising: a
    dictionary with a volume, with effects that have a [copy] method (a
    dictionary or a list, given in place or by reference) and with a
    playing flag that is a plain value. *)
Definition entry_ok (h : list pyval) (entry : pyval) : bool :=
  match entry with
  | PDict d =>
      match dict_get "volume" d, dict_get "effects" d,
            dict_get "is_playing" d with
      | Some _, Some eff, Some pl => is_container (py_deref h eff) && plain pl
      | _, _, _ => false
      end
  | _ => false
  end.

(** [play_sound] gets as far as marking the slot [snd]: pygame loads its
    file, [find_channel] finds a channel, and the stored volume is a number
    that the channel accepts. *)
Definition can_play (s : AmbientSoundMixer) (snd : Sound) : bool :=
  bool_decide (filename snd ∈ sound_files s)
  && match first_idle 0 (mixer s) with Some _ => true | None => false end
  && is_number (volume snd).

(** ** Sessions *)

(** What happens between two runs of the event loop: the user interface
    calls a method, the user edits the name, category, tags and selection
    entries, or time passes. *)
Inductive action : Type :=
| Call (m : method)
| Edit (n c t p : string)
| Tick (now : string).

Definition with_clock (now : string) (s : AmbientSoundMixer)
    : AmbientSoundMixer :=
  mkApp (sounds s) (presets s) (preset_name_var s) (category_var s)
        (tags_var s) (preset_var s) (preset_combo s) (objects s) (mixer s)
        (sound_files s) (presets_json s) now (messages s).

(** An exception that a method lets through is reported by the event loop,
    which goes on with the state the method left. *)
Definition step (s : AmbientSoundMixer) (a : action) : AmbientSoundMixer :=
  match a with
  | Call m => exec (call m) s
  | Edit n c t p => with_entries n c t p s
  | Tick now => with_clock now s
  end.

Definition run_session (l : list action) (s : AmbientSoundMixer)
    : AmbientSoundMixer :=
  fold_left step l s.

(** The slots whose effects object is in [s] still have one in [s']. *)
Definition keeps_effects : relation AmbientSoundMixer :=
  fun s s' => effects_ok s = true → effects_ok s' = true.

(** ** Two sessions *)

(** A session with all the sound files: the user starts Rain and Coffee
    Shop, saves the mix as "Evening", stops both sounds and selects
    "Evening" in the combo box. *)
Definition evening_session : AmbientSoundMixer :=
  run_session
    [Call (Toggle "Rain"); Call (Toggle "Coffee Shop");
     Edit "Evening" "calm" "rain, cafe" ""; Call SavePreset;
     Call (Toggle "Rain"); Call (Toggle "Coffee Shop");
     Edit "" "" "" "Evening"]
    (started all_sound_files None "2024-05-01T10:00:00").

(** A [presets.json] with one preset, "Rainy", that recorded Rain as
    playing. *)
Definition rainy_file : file :=
  JsonText (PDict
    [("Rainy",
      PDict [("name", PStr "Rainy");
             ("settings",
              PDict [("Rain",
                      PDict [("volume", PFloat 0.5);
                             ("is_playing", PBool true);
                             ("effects",
                              PDict [("reverb", PFloat 0.25);
                                     ("eq_low", PFloat 1);
                                     ("eq_mid", PFloat 1);
                                     ("eq_high", PFloat 1)])])]);
             ("category", PStr "weather");
             ("tags", PList [PStr "rain"]);
             ("created_at", PStr "2024-04-30T21:15:00")])]).

(** A session without sound files (the [sounds] directory is missing):
    the application starts on [rainy_file] and the user selects "Rainy". *)
Definition silent_session : AmbientSoundMixer :=
  run_session [Edit "" "" "" "Rainy"]
    (started [] (Some rainy_file) "2024-05-01T10:00:00").

(** ** Methods that do not look into the store *)

(** [m] neither reads nor writes the objects of the store: run on a
    changed store it gives the same result, the same state and the changed
    store. *)
Definition store_blind {A} (m : M A) : Prop :=
  ∀ f s, m (with_objects f s) = (fst (m s), with_objects f (snd (m s))).

(** ** The effects objects of the slots *)

(** The effects references of the slots, in the order of the registry. *)
Definition slot_effects (s : AmbientSoundMixer) : list loc :=
  map (fun kv => effects (snd kv)) (sounds s).

(** If in [s] every slot has an effects object of its own, so it has in
    [s']. *)
Definition keeps_apart : relation AmbientSoundMixer :=
  fun s s' =>
    effects_ok s = true ∧ NoDup (slot_effects s) →
    effects_ok s' = true ∧ NoDup (slot_effects s').

(** ** Reading the sound files and the presets file *)

(** The warnings of [load_sounds]: one for each slot whose file is not
    among [files], in the order of the registry. *)
Definition missing_warnings (files : list string)
    (reg : list (string * Sound)) : list event :=
  map (fun kv => showwarning "File Missing"
                   ("Sound file not found: " ++ filename (snd kv)))
      (filter (fun kv => filename (snd kv) ∉ files) reg).

(** A value that [load_presets] accepts as the record of a preset: an
    object whose keys are the five field names, in any order. *)
Definition is_record (v : pyval) : Prop :=
  match v with
  | PDict d => dict_keys d ≡ₚ preset_fields
  | _ => False
  end.

(** ** Characters of a string *)


(** ** The channel handles of the slots *)

(** Every channel handle of a slot is a channel of the mixer, and a slot
    without a handle is not playing. *)
Definition channels_ok (s : AmbientSoundMixer) : bool :=
  forallb (fun kv => match channel (snd kv) with
                     | Some c => (c <? length (mixer s))%nat
                     | None => negb (is_playing (snd kv))
                     end) (sounds s).

(** The mixer keeps its number of channels, and the handles stay good. *)
Definition keeps_channels : relation AmbientSoundMixer :=
  fun s s' =>
    length (mixer s') = length (mixer s)
    ∧ (channels_ok s = true → channels_ok s' = true).

(** ** The combo box *)

(** If the combo box lists the names of the presets map in [s], so it does
    in [s']. *)
Definition keeps_combo : relation AmbientSoundMixer :=
  fun s s' =>
    preset_combo s = dict_keys (presets s) →
    preset_combo s' = dict_keys (presets s').

(** ** The slots apart from their buttons *)

(** The slots with the labels of their buttons left out. *)
Definition slots_unlabelled (s : AmbientSoundMixer) : list (string * Sound) :=
  map (fun kv => (fst kv, with_button None (snd kv))) (sounds s).

(** The effects dictionary of a new [Sound]. *)
Definition default_effects : pyval :=
  PDict [("reverb", PFloat 0); ("eq_low", PFloat 1);
         ("eq_mid", PFloat 1); ("eq_high", PFloat 1)].

(** ** The labels of the buttons *)

(** Every slot has a button, which shows "Stop" while the slot is marked as
    playing and "Play" otherwise. *)
Definition buttons_ok (s : AmbientSoundMixer) : Prop :=
  ∀ n x, dict_get n (sounds s) = Some x →
         button x = Some (if is_playing x then "Stop" else "Play").

(** If the buttons show the state of their slots in [s], so they do in
    [s']. *)
Definition keeps_buttons : relation AmbientSoundMixer :=
  fun s s' => buttons_ok s → buttons_ok s'.

(** * Properties *)

(** ** Dictionaries *)

Section DictFacts.
Context {V : Type}.
Implicit Types (d : list (string * V)) (k : string).

Lemma dict_get_None k d : dict_get k d = None ↔ k ∉ dict_keys d.
Proof.
  induction d as [|[k' v] d IH]; simpl.
  - split; [intros _; apply not_elem_of_nil | done].
  - rewrite not_elem_of_cons. case_decide as Hk.
    + split; [done | intros [? _]; done].
    + rewrite IH. split; [by split | by intros [_ ?]].
Qed.

Lemma dict_mem_true k d : dict_mem k d = true ↔ k ∈ dict_keys d.
Proof.
  unfold dict_mem. destruct (dict_get k d) eqn:E.
  - split; [intros _ | done].
    destruct (decide (k ∈ dict_keys d)) as [|N]; [done|].
    apply dict_get_None in N. congruence.
  - split; [done|]. intros Hin. by apply dict_get_None in E.
Qed.

Lemma dict_mem_false k d : dict_mem k d = false ↔ k ∉ dict_keys d.
Proof.
  rewrite <- dict_mem_true. destruct (dict_mem k d); naive_solver.
Qed.

Lemma dict_keys_alter (f : V → V) k d :
  dict_keys (dict_alter f k d) = dict_keys d.
Proof.
  induction d as [|[k' v] d IH]; simpl; [done|].
  case_decide; simpl; [done|]. by f_equal.
Qed.

Lemma dict_get_alter (f : V → V) k k' d :
  dict_get k' (dict_alter f k d)
  = if decide (k' = k) then f <$> dict_get k d else dict_get k' d.
Proof.
  induction d as [|[k0 v] d IH]; simpl.
  - by case_decide.
  - destruct (decide (k = k0)) as [->|Hk]; simpl.
    + repeat case_decide; subst; done.
    + rewrite IH. repeat case_decide; subst; done.
Qed.

Lemma dict_get_alter_eq (f : V → V) k d :
  dict_get k (dict_alter f k d) = f <$> dict_get k d.
Proof. rewrite dict_get_alter. by rewrite decide_True. Qed.

Lemma dict_get_alter_ne (f : V → V) k k' d :
  k' ≠ k → dict_get k' (dict_alter f k d) = dict_get k' d.
Proof. intros. rewrite dict_get_alter. by rewrite decide_False. Qed.

Lemma dict_get_set k k' (v : V) d :
  dict_get k' (dict_set k v d)
  = if decide (k' = k) then Some v else dict_get k' d.
Proof.
  induction d as [|[k0 v0] d IH]; simpl.
  - by case_decide.
  - repeat (case_decide; simpl; subst); try done.
Qed.

Lemma dict_get_Some_elem k (v : V) d : dict_get k d = Some v → (k, v) ∈ d.
Proof.
  induction d as [|[k0 v0] d IH]; simpl; [done|].
  case_decide; subst.
  - intros [= ->]. apply list_elem_of_here.
  - intros. apply list_elem_of_further. auto.
Qed.

End DictFacts.

(** ** Running the monad *)

Lemma run_bind {A B} (m : M A) (k : A → M B) s :
  (m ≫= k) s
  = match m s with
    | (Ok a, s') => k a s'
    | (Raise e, s') => (Raise e, s')
    end.
Proof. reflexivity. Qed.

Lemma run_ret {A} (a : A) s : ret a s = (Ok a, s).
Proof. reflexivity. Qed.

Lemma run_gets {A} (f : AmbientSoundMixer → A) s : gets f s = (Ok (f s), s).
Proof. reflexivity. Qed.

Lemma run_modify f s : modify f s = (Ok tt, f s).
Proof. reflexivity. Qed.

Lemma run_message e s : message e s = (Ok tt, with_message e s).
Proof. reflexivity. Qed.

Lemma run_try {A} (m : M A) h s :
  try_except m h s
  = match m s with
    | (Ok a, s') => (Ok a, s')
    | (Raise e, s') => h e s'
    end.
Proof. reflexivity. Qed.

Lemma run_sounds_getitem n s snd :
  dict_get n (sounds s) = Some snd → sounds_getitem n s = (Ok snd, s).
Proof.
  intros H. unfold sounds_getitem. rewrite run_bind, run_gets, H. done.
Qed.

Lemma run_sounds_getitem_None n s :
  dict_get n (sounds s) = None → sounds_getitem n s = (Raise (KeyError n), s).
Proof.
  intros H. unfold sounds_getitem. rewrite run_bind, run_gets, H. done.
Qed.

Lemma run_sound_setattr n f s :
  sound_setattr n f s = (Ok tt, with_sounds (dict_alter f n) s).
Proof. reflexivity. Qed.

Ltac run :=
  repeat first
    [ rewrite run_bind | rewrite run_ret | rewrite run_gets
    | rewrite run_modify | rewrite run_message | rewrite run_try
    | rewrite run_sound_setattr | progress cbv beta iota ].

(** ** Relations that every step of a method respects *)

#[global] Instance same_preorder {X} (π : AmbientSoundMixer → X) :
  PreOrder (same π).
Proof.
  split.
  - by intros s.
  - intros s1 s2 s3 H12 H23. unfold same in *. congruence.
Qed.

#[global] Instance store_grows_preorder : PreOrder store_grows.
Proof.
  split.
  - intros s. unfold store_grows. done.
  - intros s1 s2 s3 H12 H23. unfold store_grows in *. by etrans.
Qed.

Section Stable.
Context (R : relation AmbientSoundMixer) `{!PreOrder R}.

Lemma stable_ret {A} (a : A) : stable R (ret a).
Proof. intros s. reflexivity. Qed.

Lemma stable_raise {A} e : stable R (@raise A e).
Proof. intros s. reflexivity. Qed.

Lemma stable_gets {A} (f : AmbientSoundMixer → A) : stable R (gets f).
Proof. intros s. reflexivity. Qed.

Lemma stable_modify f : (∀ s, R s (f s)) → stable R (modify f).
Proof. intros H s. apply H. Qed.

Lemma stable_bind {A B} (m : M A) (k : A → M B) :
  stable R m → (∀ a, stable R (k a)) → stable R (m ≫= k).
Proof.
  intros Hm Hk s. unfold exec. rewrite run_bind.
  specialize (Hm s). unfold exec in Hm.
  destruct (m s) as [[a|e] s']; simpl in *.
  - etrans; [exact Hm|]. apply Hk.
  - done.
Qed.

Lemma stable_try {A} (m : M A) h :
  stable R m → (∀ e, stable R (h e)) → stable R (try_except m h).
Proof.
  intros Hm Hh s. unfold exec. rewrite run_try.
  specialize (Hm s). unfold exec in Hm.
  destruct (m s) as [[a|e] s']; simpl in *.
  - done.
  - etrans; [exact Hm|]. apply Hh.
Qed.

Lemma stable_for_each_Forall {A} (l : list A) body :
  Forall (λ x, stable R (body x)) l → stable R (for_each l body).
Proof.
  induction 1 as [|x l Hx _ IH]; simpl.
  - apply stable_ret.
  - apply stable_bind; auto.
Qed.

Lemma stable_for_each {A} (l : list A) body :
  (∀ x, stable R (body x)) → stable R (for_each l body).
Proof. intros Hb. apply stable_for_each_Forall, Forall_forall. auto. Qed.

Lemma stable_map_M {A B} (f : A → M B) (l : list A) :
  (∀ x, stable R (f x)) → stable R (map_M f l).
Proof.
  intros Hf. induction l as [|x l IH]; simpl.
  - apply stable_ret.
  - apply stable_bind; [auto|]. intros y.
    apply stable_bind; [auto|]. intros ys. apply stable_ret.
Qed.
End Stable.

(** One step of a proof that a method is stable: the monad operations, then
    a case distinction, then the definition of the method at the head. *)
Ltac stable_step :=
  first
    [ apply stable_ret; tc_solve | apply stable_raise; tc_solve
    | apply stable_gets; tc_solve
    | apply stable_bind; [tc_solve| |intros ?]
    | apply stable_try; [tc_solve| |intros ?]
    | apply stable_for_each; [tc_solve|intros ?]
    | apply stable_map_M; [tc_solve|intros ?]
    | match goal with
      | |- stable _ (match ?x with _ => _ end) => destruct x
      end ].

Lemma stable_obj_alloc R o :
  (∀ s, R s (with_objects (λ h, h ++ [o]) s)) → stable R (obj_alloc o).
Proof. intros H s. apply H. Qed.

(** A proof that a method is stable by the structure of its code: [known]
    closes the calls that have a lemma, [side] the assignments. *)
Ltac stable_with known side :=
  repeat first
    [ known
    | apply stable_modify; intros ?; side
    | apply stable_obj_alloc; intros ?; side
    | stable_step
    | match goal with
      | |- stable ?R ?m =>
          let m' := eval red in m in progress change (stable R m')
      end ].

(** ** The names of the slots *)

Lemma preserves_names_setattr n f : preserves sound_names (sound_setattr n f).
Proof. intros s. apply dict_keys_alter. Qed.

Lemma preserves_names_message e : preserves sound_names (message e).
Proof. done. Qed.

Lemma preserves_names_set_volume c v :
  preserves sound_names (Channel_set_volume c v).
Proof.
  unfold Channel_set_volume. destruct (is_number v).
  - by apply stable_modify.
  - apply stable_raise; tc_solve.
Qed.

Create HintDb names.
#[local] Hint Resolve preserves_names_setattr preserves_names_message
  preserves_names_set_volume : names.

Ltac names_tac :=
  stable_with ltac:(solve [auto 1 with names nocore]) ltac:(reflexivity).

Lemma preserves_names_play n : preserves sound_names (play_sound n).
Proof. unfold play_sound. names_tac. Qed.
#[local] Hint Resolve preserves_names_play : names.

Lemma preserves_names_stop n : preserves sound_names (stop_sound n).
Proof.
  unfold stop_sound, sounds_getitem, Channel_stop, button_configure,
    sounds_getitem. names_tac.
Qed.
#[local] Hint Resolve preserves_names_stop : names.

Lemma preserves_names_toggle n : preserves sound_names (toggle_sound n).
Proof.
  unfold toggle_sound, sounds_getitem. names_tac.
Qed.
#[local] Hint Resolve preserves_names_toggle : names.

Lemma preserves_names_update_effect n e v :
  preserves sound_names (update_effect n e v).
Proof.
  unfold update_effect, sounds_getitem, py_setitem. names_tac.
Qed.
#[local] Hint Resolve preserves_names_update_effect : names.

Lemma preserves_names_volume n v : preserves sound_names (on_volume_change n v).
Proof.
  unfold on_volume_change, sounds_getitem, Channel_set_volume. names_tac.
Qed.
#[local] Hint Resolve preserves_names_volume : names.

Lemma preserves_names_save_preset : preserves sound_names save_preset.
Proof.
  unfold save_preset, sound_settings, save_presets_to_file,
    update_preset_list. names_tac.
Qed.
#[local] Hint Resolve preserves_names_save_preset : names.

Lemma preserves_names_apply kv : preserves sound_names (apply_settings kv).
Proof.
  destruct kv as [n entry]. unfold apply_settings. names_tac.
Qed.
#[local] Hint Resolve preserves_names_apply : names.

Lemma preserves_names_load_preset : preserves sound_names load_preset.
Proof.
  unfold load_preset, presets_getitem, py_items. names_tac.
Qed.
#[local] Hint Resolve preserves_names_load_preset : names.

Lemma preserves_names_call m : preserves sound_names (call m).
Proof.
  destruct m; unfold call; auto with names.
Qed.
#[local] Hint Resolve preserves_names_call : names.

Lemma preserves_names_load_presets : preserves sound_names load_presets.
Proof.
  unfold load_presets, json_load_presets, py_items, preset_of_item. names_tac.
Qed.
#[local] Hint Resolve preserves_names_load_presets : names.

Lemma exec_bind {A B} (m : M A) (k : A → M B) s :
  exec (m ≫= k) s
  = match m s with
    | (Ok a, s') => exec (k a) s'
    | (Raise e, s') => s'
    end.
Proof. unfold exec. rewrite run_bind. by destruct (m s) as [[a|e] s']. Qed.

Lemma init_sound_names s :
  sound_names (exec init s)
  = ["Rain"; "Coffee Shop"; "White Noise"; "Forest"; "Ocean"].
Proof.
  unfold init. rewrite exec_bind.
  unfold initialize_sounds, Sound_init, obj_alloc. run. simpl.
  rewrite exec_bind, run_modify.
  assert (preserves sound_names
            (load_sounds;;
             ps ← load_presets; modify (with_presets (λ _, ps));; setup_ui))
    as Hrest.
  { unfold load_sounds, setup_ui, update_preset_list. names_tac. }
  rewrite Hrest. reflexivity.
Qed.

Lemma session_sound_names l s :
  sound_names (run_session l s) = sound_names s.
Proof.
  unfold run_session. revert s.
  induction l as [|a l IH]; intros s; [done|].
  cbn [fold_left]. rewrite IH. destruct a as [m|n c t p|t]; cbn [step].
  - apply preserves_names_call.
  - done.
  - done.
Qed.

(** ** C3: the registry of sound slots is fixed *)

(** C3.  Once [__init__] has run, whatever the sound files, [presets.json]
    and the clock are, the names of the sound slots are exactly "Rain",
    "Coffee Shop", "White Noise", "Forest" and "Ocean"; every method
    (toggle, play, stop, volume change, effect update, preset save, preset
    load), called in any state and whether it returns or raises, leaves the
    names of the slots as they were: none is added, none removed; so the
    names are these five at every point of every session. *)
Theorem registry_names_fixed :
  (∀ files pj now,
      sound_names (started files pj now)
      = ["Rain"; "Coffee Shop"; "White Noise"; "Forest"; "Ocean"])
  ∧ (∀ (m : method) (s : AmbientSoundMixer),
      sound_names (exec (call m) s) = sound_names s)
  ∧ (∀ files pj now (l : list action),
      sound_names (run_session l (started files pj now))
      = ["Rain"; "Coffee Shop"; "White Noise"; "Forest"; "Ocean"]).
Proof.
  split; [|split].
  - intros. apply init_sound_names.
  - intros m s. apply preserves_names_call.
  - intros files pj now l. rewrite session_sound_names.
    apply init_sound_names.
Qed.

(** ** Induction on values *)

Section PyvalInd.
Variable P : pyval → Prop.
Hypothesis HNone : P PNone.
Hypothesis HBool : ∀ b, P (PBool b).
Hypothesis HInt : ∀ z, P (PInt z).
Hypothesis HFloat : ∀ f, P (PFloat f).
Hypothesis HStr : ∀ s, P (PStr s).
Hypothesis HList : ∀ l, Forall P l → P (PList l).
Hypothesis HDict : ∀ d, Forall (λ kv, P (snd kv)) d → P (PDict d).
Hypothesis HRef : ∀ r, P (PRef r).

End PyvalInd.



(** ** C5 and C1: the presets file *)

Lemma run_save_presets_to_file s :
  save_presets_to_file s
  = (Ok tt,
     with_presets_json
       (Some (JsonText (PDict
          (map (λ kv, (fst kv, json_of (objects s) (Preset_dict (snd kv))))
               (presets s))))) s).
Proof. reflexivity. Qed.

(** C5.  After [save_presets_to_file], [presets.json] is one JSON object
    with one item per preset of the in-memory map, in the same order and
    under the same name; the item of a preset is a record with exactly the
    fields name, settings, category, tags and created_at, which hold the
    values of the preset's own attributes, so no record holds a map of
    presets. *)
Theorem presets_file_is_flat (s : AmbientSoundMixer) :
  ∃ items,
    presets_json (exec save_presets_to_file s) = Some (JsonText (PDict items))
    ∧ dict_keys items = dict_keys (presets s)
    ∧ Forall2
        (λ kv item,
           fst item = fst kv
           ∧ ∃ fields,
               snd item = PDict fields
               ∧ dict_keys fields = preset_fields
               ∧ map snd fields
                 = map (json_of (objects s))
                       [name (snd kv); settings (snd kv); category (snd kv);
                        tags (snd kv); created_at (snd kv)])
        (presets s) items.
Proof.
  eexists. unfold exec. rewrite run_save_presets_to_file. simpl.
  split; [reflexivity|]. split.
  - unfold dict_keys. rewrite map_map. done.
  - induction (presets s) as [|[k p] ps IH]; simpl; constructor; [|done].
    split; [done|]. eexists. split; [reflexivity|]. done.
Qed.


Lemma run_json_load_presets s doc :
  presets_json s = Some (JsonText doc) → json_load_presets s = (Ok doc, s).
Proof. intros H. unfold json_load_presets. run. by rewrite H. Qed.

Lemma run_py_items_dict d s : py_items (PDict d) s = (Ok d, s).
Proof. reflexivity. Qed.




(** ** C8, C9 and C10: the paths that do nothing *)

(** C8.  When the name entry is empty, [save_preset] returns without
    raising and only shows the warning "Please enter a preset name": the
    in-memory presets map, [presets.json], the sound slots, the effects
    dictionaries in the store and the mixer channels are as before, so no
    preset is made or overwritten. *)
Theorem save_preset_empty_name (s : AmbientSoundMixer) :
  preset_name_var s = "" →
  let s' := exec save_preset s in
  save_preset s = (Ok tt, s')
  ∧ messages s'
    = messages s ++ [showwarning "Warning" "Please enter a preset name"]
  ∧ presets s' = presets s
  ∧ presets_json s' = presets_json s
  ∧ sounds s' = sounds s
  ∧ objects s' = objects s
  ∧ mixer s' = mixer s
  ∧ preset_combo s' = preset_combo s.
Proof.
  intros H s'. subst s'. unfold exec, save_preset. run. rewrite H.
  cbn [nonempty]. run. by repeat split.
Qed.

Lemma save_preset_empty_name_witness :
  let s := started all_sound_files None "2024-05-01T10:00:00" in
  let s' := exec save_preset s in
  save_preset s = (Ok tt, s')
  ∧ messages s'
    = messages s ++ [showwarning "Warning" "Please enter a preset name"]
  ∧ presets s' = presets s
  ∧ presets_json s' = presets_json s
  ∧ sounds s' = sounds s
  ∧ objects s' = objects s
  ∧ mixer s' = mixer s
  ∧ preset_combo s' = preset_combo s.
Proof.
  apply (save_preset_empty_name
           (started all_sound_files None "2024-05-01T10:00:00")).
  reflexivity.
Defined.



(** C10.  When the name selected in the combo box is empty, or is not a key
    of the in-memory presets map, [load_preset] returns at once: the whole
    state, and so the volume, the effects and the playing flag of every
    sound slot, is unchanged. *)
Theorem load_preset_unknown_is_noop (s : AmbientSoundMixer) :
  preset_var s = "" ∨ preset_var s ∉ dict_keys (presets s) →
  load_preset s = (Ok tt, s).
Proof.
  intros H. unfold load_preset. run.
  destruct H as [H|H].
  - rewrite H. done.
  - apply dict_mem_false in H. rewrite H. by rewrite orb_true_r.
Qed.

Lemma load_preset_unknown_is_noop_witness :
  let s := with_entries "" "" "" "Storm"
             (started all_sound_files None "2024-05-01T10:00:00") in
  load_preset s = (Ok tt, s).
Proof.
  apply (load_preset_unknown_is_noop
           (with_entries "" "" "" "Storm"
              (started all_sound_files None "2024-05-01T10:00:00"))).
  right. vm_compute. apply not_elem_of_nil.
Defined.

(** ** C7 and C6: volume and playback *)

(** The first idle channel is a channel of the mixer, is idle, and every
    channel before it is busy. *)
Lemma first_idle_Some i chans c :
  first_idle i chans = Some c →
  (i ≤ c)%nat ∧ (c - i < length chans)%nat
  ∧ busy <$> chans !! (c - i)%nat = Some false.
Proof.
  revert i. induction chans as [|ch chans IH]; intros i; simpl; [done|].
  destruct (busy ch) eqn:Hb.
  - intros H. apply IH in H as (? & ? & Hl).
    replace (c - i)%nat with (S (c - S i)) by lia. simpl. split; [lia|].
    split; [lia|done].
  - intros [= <-]. rewrite Nat.sub_diag. simpl. rewrite Hb.
    split; [lia|]. split; [lia|done].
Qed.

Lemma first_idle_lt chans c : first_idle 0 chans = Some c → (c < length chans)%nat.
Proof. intros H. apply first_idle_Some in H as (_ & H & _). lia. Qed.

(** C7.  For a sound slot [n] of the registry and a slider value [v] (any
    float, so every value from 0 to 100), [on_volume_change] returns
    without raising, having set the stored volume of the slot to [v / 100]
    and nothing else in the slot; when the slot has a channel, that
    channel's volume becomes [v / 100]; every other slot keeps its volume,
    playing flag, channel and effects reference, and the effects
    dictionaries in the store are untouched. *)
Theorem on_volume_change_sets_volume
    (s : AmbientSoundMixer) (n : string) (snd0 : Sound) (v : float) :
  dict_get n (sounds s) = Some snd0 →
  let s' := exec (on_volume_change n v) s in
  on_volume_change n v s = (Ok tt, s')
  ∧ dict_get n (sounds s') = Some (with_volume (PFloat (v / 100)) snd0)
  ∧ (∀ c ch, channel snd0 = Some c → mixer s !! c = Some ch →
       mixer s' !! c
       = Some (mkChannel (busy ch) (chan_sound ch) (chan_loops ch)
                         (PFloat (v / 100))))
  ∧ (channel snd0 = None → mixer s' = mixer s)
  ∧ (∀ m, m ≠ n → dict_get m (sounds s') = dict_get m (sounds s))
  ∧ objects s' = objects s.
Proof.
  intros Hn s'. subst s'. unfold exec, on_volume_change.
  run. rewrite (run_sounds_getitem _ _ _ Hn). run.
  destruct (channel snd0) as [c|] eqn:Hc.
  - unfold Channel_set_volume. cbn [is_number]. run. cbn [snd].
    split; [done|]. split.
    { cbn [sounds with_mixer with_sounds]. rewrite dict_get_alter_eq, Hn. done. }
    split.
    { intros c' ch [= <-] Hch. cbn [mixer with_mixer with_sounds].
      rewrite list_lookup_alter_eq, Hch. done. }
    split; [done|]. split; [|done].
    intros m Hm. cbn [sounds with_mixer with_sounds].
    by rewrite dict_get_alter_ne.
  - run. cbn [snd]. split; [done|]. split.
    { cbn [sounds with_sounds]. rewrite dict_get_alter_eq, Hn. done. }
    split; [done|]. split; [done|]. split; [|done].
    intros m Hm. cbn [sounds with_sounds]. by rewrite dict_get_alter_ne.
Qed.

Lemma on_volume_change_sets_volume_witness :
  let s := exec (toggle_sound "Rain")
             (started all_sound_files None "2024-05-01T10:00:00") in
  let s' := exec (on_volume_change "Rain" 50) s in
  dict_get "Rain" (sounds s')
  = Some (mkSound "sounds/rain.mp3" (PFloat 0.5) (Some 0) true 0 (Some "Stop"))
  ∧ chan_volume <$> mixer s' !! 0 = Some (PFloat 0.5).
Proof.
  pose proof (on_volume_change_sets_volume
    (exec (toggle_sound "Rain")
       (started all_sound_files None "2024-05-01T10:00:00"))
    "Rain"
    (mkSound "sounds/rain.mp3" (PFloat 1) (Some 0) true 0 (Some "Stop"))
    50 eq_refl) as (_ & Hv & Hc & _).
  split.
  - exact Hv.
  - rewrite (Hc 0 (mkChannel true (Some "sounds/rain.mp3") (-1) (PFloat 1))
               eq_refl eq_refl).
    reflexivity.
Defined.

Lemma run_mixer_Sound f s :
  f ∈ sound_files s → mixer_Sound f s = (Ok f, s).
Proof.
  intros H. unfold mixer_Sound. run. by rewrite bool_decide_eq_true_2.
Qed.

Lemma run_mixer_Sound_missing f s :
  f ∉ sound_files s → ∃ e, mixer_Sound f s = (Raise e, s).
Proof.
  intros H. unfold mixer_Sound. run. rewrite bool_decide_eq_false_2 by done.
  by eexists.
Qed.

Lemma run_find_channel s : find_channel s = (Ok (first_idle 0 (mixer s)), s).
Proof. reflexivity. Qed.

Lemma run_Channel_set_volume c v s :
  is_number v = true →
  Channel_set_volume c v s
  = (Ok tt,
     with_mixer (alter (λ ch, mkChannel (busy ch) (chan_sound ch)
                                (chan_loops ch) v) c) s).
Proof. intros H. unfold Channel_set_volume. by rewrite H. Qed.

(** What [button_configure] leaves of a slot: everything but the label. *)
Lemma button_configure_sound n label s snd0 :
  dict_get n (sounds s) = Some snd0 →
  ∃ r b,
    button_configure n label s
    = (r, with_sounds (dict_alter (with_button b) n) s).
Proof.
  intros H. unfold button_configure. run.
  rewrite (run_sounds_getitem _ _ _ H). run.
  destruct (button snd0) as [b|] eqn:Hb.
  - run. by eexists _, _.
  - exists (Raise (AttributeError
              "'NoneType' object has no attribute 'configure'")), None.
    unfold raise. f_equal. destruct s as [reg ? ? ? ? ? ? ? ? ? ? ? ?].
    unfold with_sounds. cbn. f_equal.
    clear -H Hb. induction reg as [|[k x] reg IH]; simpl in *; [done|].
    case_decide; subst.
    + injection H as ->. destruct snd0; simpl in *. by subst.
    + f_equal. auto.
Qed.

(** What [play_sound] does once it has a channel. *)
Lemma play_sound_channel
    (s : AmbientSoundMixer) (n : string) (snd0 : Sound) (c : nat) :
  dict_get n (sounds s) = Some snd0 →
  filename snd0 ∈ sound_files s →
  first_idle 0 (mixer s) = Some c →
  is_number (volume snd0) = true →
  let s' := exec (play_sound n) s in
  mixer s' !! c
  = Some (mkChannel true (Some (filename snd0)) (-1) (volume snd0))
  ∧ ∃ snd', dict_get n (sounds s') = Some snd'
            ∧ is_playing snd' = true
            ∧ channel snd' = Some c
            ∧ volume snd' = volume snd0
            ∧ effects snd' = effects snd0.
Proof.
  intros Hn Hf Hc Hv s'. subst s'. unfold exec, play_sound. run.
  rewrite (run_sounds_getitem _ _ _ Hn). run.
  rewrite (run_mixer_Sound _ _ Hf). run.
  rewrite run_find_channel, Hc. run.
  unfold Channel_play. run.
  rewrite (run_Channel_set_volume _ _ _ Hv). run.
  match goal with
  | |- context [button_configure n "Stop" ?st] =>
      destruct (button_configure_sound n "Stop" st
                  (with_is_playing true (with_channel (Some c) snd0)))
        as (r & b & ->)
  end.
  { cbn [sounds with_sounds with_mixer].
    rewrite !dict_get_alter_eq, Hn. done. }
  apply first_idle_lt in Hc.
  destruct r as [[]|e]; cbn [snd].
  - split.
    { cbn [mixer with_sounds with_mixer].
      rewrite list_lookup_alter_eq, list_lookup_insert_eq by done. done. }
    eexists. split.
    { cbn [sounds with_sounds with_mixer].
      rewrite !dict_get_alter_eq, Hn. reflexivity. }
    done.
  - run. cbn [snd]. split.
    { cbn [mixer with_message with_sounds with_mixer].
      rewrite list_lookup_alter_eq, list_lookup_insert_eq by done. done. }
    eexists. split.
    { cbn [sounds with_message with_sounds with_mixer].
      rewrite !dict_get_alter_eq, Hn. reflexivity. }
    done.
Qed.



(** ** Every slot has its effects object, in every session *)

#[global] Instance keeps_effects_preorder : PreOrder keeps_effects.
Proof.
  split.
  - intros s H. exact H.
  - intros s1 s2 s3 H12 H23 H. apply H23, H12, H.
Qed.

Lemma effects_ok_alter f n s :
  (∀ x, effects (f x) = effects x) →
  effects_ok (with_sounds (dict_alter f n) s) = effects_ok s.
Proof.
  intros Hf. unfold effects_ok. cbn [sounds objects with_sounds].
  induction (sounds s) as [|[k x] reg IH]; [done|].
  cbn [dict_alter]. case_decide; cbn [forallb snd].
  - by rewrite Hf.
  - by rewrite IH.
Qed.

Lemma effects_ok_store (f : list pyval → list pyval) s :
  (∀ r o, objects s !! r = Some o → is_container o = true →
          ∃ o', f (objects s) !! r = Some o' ∧ is_container o' = true) →
  effects_ok s = true → effects_ok (with_objects f s) = true.
Proof.
  intros Hf. unfold effects_ok. cbn [sounds objects with_objects].
  induction (sounds s) as [|[k x] reg IH]; [done|].
  cbn [forallb snd]. intros H. apply andb_prop in H as [Hx Hreg].
  destruct (objects s !! effects x) as [o|] eqn:Ho; [|done].
  destruct (Hf _ _ Ho Hx) as (o' & -> & ->). auto.
Qed.

Lemma effects_ok_alloc o s :
  effects_ok s = true → effects_ok (with_objects (λ h, h ++ [o]) s) = true.
Proof.
  apply effects_ok_store. intros r o' Hr Ho'. exists o'.
  by rewrite (lookup_app_l_Some _ _ _ _ Hr).
Qed.

Lemma effects_ok_insert r o s :
  is_container o = true → effects_ok s = true →
  effects_ok (with_objects (λ h, <[r:=o]> h) s) = true.
Proof.
  intros Ho. apply effects_ok_store. intros r' o' Hr' Ho'.
  destruct (decide (r = r')) as [<-|Hne].
  - exists o. split; [|done]. apply list_lookup_insert_eq.
    by apply lookup_lt_Some in Hr'.
  - exists o'. by rewrite list_lookup_insert_ne.
Qed.

(** The slot [n] gets a copy that has just been put in the store. *)
Lemma effects_ok_copy o n s :
  is_container o = true → effects_ok s = true →
  effects_ok
    (with_sounds (dict_alter (with_effects (length (objects s))) n)
       (with_objects (λ h, h ++ [o]) s)) = true.
Proof.
  intros Ho. unfold effects_ok.
  cbn [sounds objects with_sounds with_objects].
  induction (sounds s) as [|[k x] reg IH]; [done|].
  cbn [forallb snd dict_alter]. intros H. apply andb_prop in H as [Hx Hreg].
  destruct (objects s !! effects x) as [o'|] eqn:Ho'; [|done].
  case_decide; cbn [forallb snd effects with_effects].
  - rewrite list_lookup_middle by done. rewrite Ho. cbn.
    clear -Hreg. induction reg as [|[k' x'] reg IH]; [done|].
    cbn [forallb snd] in *. apply andb_prop in Hreg as [Hx' Hreg].
    destruct (objects s !! effects x') as [o'|] eqn:Ho'; [|done].
    rewrite (lookup_app_l_Some _ _ _ _ Ho'), Hx'. auto.
  - rewrite (lookup_app_l_Some _ _ _ _ Ho'), Hx. auto.
Qed.

Ltac effects_side :=
  unfold keeps_effects;
  first
    [ by rewrite effects_ok_alter
    | by apply effects_ok_alloc
    | by apply effects_ok_insert
    | by (intros H; exact H) ].

Lemma keeps_effects_play n : stable keeps_effects (play_sound n).
Proof. unfold play_sound. stable_with fail effects_side. Qed.

Lemma keeps_effects_stop n : stable keeps_effects (stop_sound n).
Proof. unfold stop_sound. stable_with fail effects_side. Qed.

Ltac effects_tac :=
  stable_with
    ltac:(first [ apply keeps_effects_play | apply keeps_effects_stop ])
    effects_side.

Lemma keeps_effects_copy_bind e n (rest : M unit) :
  stable keeps_effects rest →
  stable keeps_effects (r ← py_copy e; sound_setattr n (with_effects r);; rest).
Proof.
  intros Hrest s Hok. unfold exec. run. unfold py_copy. run.
  destruct (py_deref (objects s) e) eqn:Hd; try done; unfold obj_alloc; run;
    apply Hrest; by apply effects_ok_copy.
Qed.

Lemma keeps_effects_apply kv : stable keeps_effects (apply_settings kv).
Proof.
  destruct kv as [n entry]. unfold apply_settings.
  apply stable_bind; [tc_solve|effects_tac|]. intros reg.
  destruct (dict_mem n reg); [|effects_tac].
  apply stable_bind; [tc_solve|effects_tac|]. intros v.
  apply stable_bind; [tc_solve|effects_tac|]. intros _.
  apply stable_bind; [tc_solve|effects_tac|]. intros e.
  apply keeps_effects_copy_bind. effects_tac.
Qed.

Lemma keeps_effects_call m : stable keeps_effects (call m).
Proof.
  destruct m; unfold call.
  - unfold toggle_sound. effects_tac.
  - apply keeps_effects_play.
  - apply keeps_effects_stop.
  - unfold on_volume_change. effects_tac.
  - unfold update_effect. effects_tac.
  - unfold save_preset. effects_tac.
  - unfold load_preset. apply stable_bind; [tc_solve|effects_tac|]. intros n.
    apply stable_bind; [tc_solve|effects_tac|]. intros ps.
    destruct (_ || _); [effects_tac|].
    apply stable_bind; [tc_solve|effects_tac|]. intros p.
    apply stable_bind; [tc_solve|effects_tac|]. intros items.
    apply stable_for_each; [tc_solve|]. apply keeps_effects_apply.
Qed.

Lemma effects_ok_started files pj now :
  effects_ok (started files pj now) = true.
Proof.
  unfold started, init. rewrite exec_bind.
  unfold initialize_sounds, Sound_init, obj_alloc. run. cbn [boot objects].
  rewrite exec_bind, run_modify.
  assert (stable keeps_effects
            (load_sounds;;
             ps ← load_presets; modify (with_presets (λ _, ps));; setup_ui))
    as Hrest.
  { unfold load_sounds, setup_ui, update_preset_list. effects_tac. }
  apply Hrest. reflexivity.
Qed.

Lemma effects_ok_session files pj now l :
  effects_ok (run_session l (started files pj now)) = true.
Proof.
  unfold run_session.
  pose proof (effects_ok_started files pj now) as H.
  revert H. generalize (started files pj now).
  induction l as [|a l IH]; intros s Hs; [done|].
  cbn [fold_left]. apply IH. destruct a as [m|n c t p|t]; cbn [step].
  - by apply keeps_effects_call.
  - done.
  - done.
Qed.

(** ** C4: a saved preset is a snapshot *)

Lemma run_py_copy_ref r o s :
  objects s !! r = Some o → is_container o = true →
  py_copy (PRef r) s = (Ok (length (objects s)), with_objects (λ h, h ++ [o]) s).
Proof.
  intros Hr Ho. unfold py_copy. run. cbn [py_deref]. rewrite Hr. cbn [default].
  destruct o; try done.
Qed.

Lemma run_map_M_sound_settings reg s :
  forallb (λ kv, match objects s !! effects (snd kv) with
                 | Some o => is_container o
                 | None => false
                 end) reg = true →
  map_M sound_settings reg s
  = (Ok (settings_from (length (objects s)) reg),
     with_objects
       (λ h, h ++ map (λ kv, default PNone (h !! effects (snd kv))) reg) s).
Proof.
  revert s. induction reg as [|[k x] reg IH]; intros s Hok.
  - cbn [map_M settings_from map]. rewrite run_ret. f_equal.
    destruct s. unfold with_objects. cbn. by rewrite app_nil_r.
  - cbn [forallb snd] in Hok. apply andb_prop in Hok as [Hx Hreg].
    destruct (objects s !! effects x) as [o|] eqn:Ho; [|done].
    cbn [map_M settings_from]. run. unfold sound_settings at 1. run.
    cbn [snd fst]. rewrite (run_py_copy_ref _ _ _ Ho Hx). run.
    rewrite IH.
    + run. f_equal.
      * cbn [objects with_objects]. rewrite length_app. cbn [length].
        by rewrite Nat.add_1_r.
      * unfold with_objects. cbn. f_equal. rewrite <- app_assoc. cbn [app].
        rewrite Ho. cbn [default]. f_equal. f_equal.
        apply map_ext_in. intros [k' x'] Hin. cbn [snd].
        apply forallb_forall with (x := (k', x')) in Hreg; [|done].
        cbn [snd] in Hreg.
        destruct (objects s !! effects x') as [o'|] eqn:Ho'; [|done].
        by rewrite (lookup_app_l_Some _ _ _ _ Ho').
    + cbn [objects with_objects].
      apply forallb_forall. intros [k' x'] Hin.
      apply forallb_forall with (x := (k', x')) in Hreg; [|done].
      cbn [snd] in *.
      destruct (objects s !! effects x') as [o'|] eqn:Ho'; [|done].
      by rewrite (lookup_app_l_Some _ _ _ _ Ho').
Qed.

Lemma effects_ok_lookup s k x :
  effects_ok s = true → (k, x) ∈ sounds s →
  ∃ o, objects s !! effects x = Some o ∧ is_container o = true.
Proof.
  intros Hok Hin. unfold effects_ok in Hok.
  apply forallb_forall with (x := (k, x)) in Hok; [|by apply list_elem_of_In].
  cbn [snd] in Hok. destruct (objects s !! effects x) as [o|]; [|done].
  by exists o.
Qed.

Lemma settings_from_Forall2 (h : list pyval) reg :
  ∀ pre,
    Forall (λ kv, is_Some (h !! effects (snd kv))) reg →
    Forall2
      (λ kv entry,
         fst entry = fst kv
         ∧ ∃ r,
             snd entry
             = PDict [("volume", volume (snd kv));
                      ("is_playing", PBool (is_playing (snd kv)));
                      ("effects", PRef r)]
             ∧ (length h ≤ r)%nat
             ∧ (h ++ pre ++ map (λ kv, default PNone (h !! effects (snd kv))) reg)
                 !! r
               = h !! effects (snd kv))
      reg (settings_from (length h + length pre) reg).
Proof.
  induction reg as [|[k x] reg IH]; intros pre Hreg; cbn [settings_from].
  - constructor.
  - apply Forall_cons in Hreg as [[o Ho] Hreg]. cbn [snd] in Ho.
    constructor.
    + split; [done|]. exists (length h + length pre)%nat.
      split; [done|]. split; [lia|]. cbn [map snd fst].
      rewrite Ho. cbn [default].
      rewrite lookup_app_r by lia.
      replace (length h + length pre - length h)%nat with (length pre) by lia.
      by rewrite list_lookup_middle.
    + specialize (IH (pre ++ [default PNone (h !! effects x)]) Hreg).
      rewrite length_app in IH. cbn [length] in IH.
      replace (length h + (length pre + 1))%nat
        with (S (length h + length pre)) in IH by lia.
      eapply Forall2_impl; [exact IH|].
      intros [k' x'] [k'' e''] (? & r & ? & ? & Hr). split; [done|].
      exists r. split; [done|]. split; [done|].
      rewrite <- Hr. cbn [map snd]. by rewrite <- !app_assoc.
Qed.

Lemma run_save_preset s :
  preset_name_var s ≠ "" → effects_ok s = true →
  ∃ s1,
    save_preset s = (Ok tt, s1)
    ∧ presets s1
      = dict_set (preset_name_var s)
          (mkPreset (PStr (preset_name_var s))
             (PDict (settings_from (length (objects s)) (sounds s)))
             (PStr (category_var s))
             (PList (map PStr (parse_tags (tags_var s))))
             (PStr (clock s)))
          (presets s)
    ∧ objects s1
      = objects s
        ++ map (λ kv, default PNone (objects s !! effects (snd kv))) (sounds s)
    ∧ sounds s1 = sounds s.
Proof.
  intros Hn Hok. unfold save_preset. run.
  destruct (preset_name_var s) as [|a n] eqn:En; [done|]. cbn [nonempty]. run.
  rewrite run_map_M_sound_settings by exact Hok. run.
  unfold save_presets_to_file, update_preset_list. run.
  eexists. split; [reflexivity|]. by repeat split.
Qed.

Ltac frame_tac := stable_with fail ltac:(reflexivity).

Lemma preserves_objects_play n : preserves objects (play_sound n).
Proof. unfold play_sound. frame_tac. Qed.

Lemma preserves_objects_stop n : preserves objects (stop_sound n).
Proof. unfold stop_sound. frame_tac. Qed.

Lemma preserves_presets_update_effect n e v :
  preserves presets (update_effect n e v).
Proof. unfold update_effect. frame_tac. Qed.

(** [update_effect] writes to the effects object of its slot and to no
    other object of the store. *)
Lemma update_effect_store s n e v r :
  (∀ x, dict_get n (sounds s) = Some x → effects x ≠ r) →
  objects (exec (update_effect n e v) s) !! r = objects s !! r.
Proof.
  intros Hr. unfold update_effect. rewrite exec_bind.
  destruct (dict_get n (sounds s)) as [x|] eqn:Hx.
  - rewrite (run_sounds_getitem _ _ _ Hx). rewrite exec_bind.
    unfold py_setitem. run.
    destruct (objects s !! effects x) as [[| | | | | |d|]|] eqn:Ho; try done.
    run.
    assert (preserves objects
              (if is_playing x then stop_sound n;; play_sound n else ret tt))
      as Hrest.
    { destruct (is_playing x); [|apply stable_ret; tc_solve].
      apply stable_bind; [tc_solve|apply preserves_objects_stop|].
      intros _. apply preserves_objects_play. }
    rewrite Hrest. cbn [objects with_objects].
    apply list_lookup_insert_ne. by apply Hr.
  - by rewrite (run_sounds_getitem_None _ _ Hx).
Qed.

(** C4.  When the name entry is not empty (and every slot refers to an
    effects object of the store, as it does at every point of every
    session), [save_preset] returns without raising and
    stores under that name a preset whose settings have one entry for each
    sound slot of the registry, in the order of the registry and under the
    name of the slot.  The entry records the volume and the playing flag
    the slot has now, and refers to a copy of its effects: an object that
    no slot refers to, with the entries the slot's effects have now.
    Whatever [update_effect] is called afterwards, that copy keeps its
    entries and the presets map is the same, so the saved preset does not
    change. *)
Theorem save_preset_snapshot (s : AmbientSoundMixer) :
  preset_name_var s ≠ "" →
  effects_ok s = true →
  let s1 := exec save_preset s in
  ∃ p entries,
    save_preset s = (Ok tt, s1)
    ∧ dict_get (preset_name_var s) (presets s1) = Some p
    ∧ settings p = PDict entries
    ∧ sounds s1 = sounds s
    ∧ Forall2
        (λ kv entry,
           fst entry = fst kv
           ∧ ∃ r,
               snd entry
               = PDict [("volume", volume (snd kv));
                        ("is_playing", PBool (is_playing (snd kv)));
                        ("effects", PRef r)]
               ∧ Forall (λ kv', effects (snd kv') ≠ r) (sounds s)
               ∧ objects s1 !! r = objects s !! effects (snd kv)
               ∧ ∀ m e v,
                   objects (exec (update_effect m e v) s1) !! r
                   = objects s1 !! r)
        (sounds s) entries
    ∧ ∀ m e v, presets (exec (update_effect m e v) s1) = presets s1.
Proof.
  intros Hn Hok s1.
  destruct (run_save_preset s Hn Hok) as (s1' & Hrun & Hps & Hobj & Hsnd).
  assert (s1 = s1') as -> by (subst s1; unfold exec; by rewrite Hrun).
  eexists _, _. split; [exact Hrun|]. split.
  { rewrite Hps, dict_get_set. by rewrite decide_True. }
  split; [reflexivity|]. split; [exact Hsnd|]. split.
  - assert (Forall (λ kv, is_Some (objects s !! effects (snd kv))) (sounds s))
      as Hsome.
    { apply Forall_forall. intros [k x] Hin.
      destruct (effects_ok_lookup s k x Hok Hin) as (o & Ho & _).
      by exists o. }
    pose proof (settings_from_Forall2 (objects s) (sounds s) [] Hsome) as HF.
    cbn [length app] in HF. rewrite Nat.add_0_r in HF.
    eapply Forall2_impl; [exact HF|].
    intros [k x] [k' e'] (Hk & r & He & Hr & Hcopy). split; [done|].
    exists r. split; [done|].
    assert (∀ k0 x0, (k0, x0) ∈ sounds s → effects x0 ≠ r) as Hfresh.
    { intros k0 x0 Hin Heq.
      destruct (effects_ok_lookup s k0 x0 Hok Hin) as (o & Ho & _).
      apply lookup_lt_Some in Ho. lia. }
    split.
    { apply Forall_forall. intros [k0 x0] Hin. by eapply Hfresh. }
    split; [by rewrite Hobj|].
    intros m e v. apply update_effect_store. intros x0 Hx0.
    rewrite Hsnd in Hx0. apply dict_get_Some_elem in Hx0. by eapply Hfresh.
  - intros m e v. apply preserves_presets_update_effect.
Qed.

Lemma save_preset_snapshot_witness :
  let s := with_entries "Evening" "calm" "rain, night" ""
             (started all_sound_files None "2024-05-01T10:00:00") in
  let s1 := exec save_preset s in
  ∃ p entries,
    save_preset s = (Ok tt, s1)
    ∧ dict_get "Evening" (presets s1) = Some p
    ∧ settings p = PDict entries
    ∧ dict_keys entries
      = ["Rain"; "Coffee Shop"; "White Noise"; "Forest"; "Ocean"]
    ∧ ∀ m e v, presets (exec (update_effect m e v) s1) = presets s1.
Proof.
  destruct (save_preset_snapshot
              (with_entries "Evening" "calm" "rain, night" ""
                 (started all_sound_files None "2024-05-01T10:00:00")))
    as (p & entries & Hrun & Hp & Hset & _ & HF & Hupd).
  - done.
  - reflexivity.
  - exists p, entries. split; [exact Hrun|]. split; [exact Hp|].
    split; [exact Hset|]. split; [|exact Hupd].
    vm_compute in Hp. injection Hp as <-. vm_compute in Hset.
    injection Hset as <-. reflexivity.
Defined.

(** ** C2: applying a preset *)

(** A handler that only shows or logs a message makes the method return. *)
Lemma try_message_returns (m : M unit) (h : exn → event) :
  returns (try_except m (λ e, message (h e))).
Proof.
  intros s. rewrite run_try. destruct (m s) as [[[]|e] s'].
  - by eexists _, _.
  - rewrite run_message. by eexists _, _.
Qed.

Lemma play_sound_returns n : returns (play_sound n).
Proof. apply try_message_returns. Qed.

Lemma stop_sound_returns n : returns (stop_sound n).
Proof. apply try_message_returns. Qed.

(** The slot after [stop_sound]: not playing, the rest as it was. *)
Lemma stop_sound_slot s n x :
  dict_get n (sounds s) = Some x →
  ∃ x', dict_get n (sounds (exec (stop_sound n) s)) = Some x'
        ∧ volume x' = volume x
        ∧ effects x' = effects x
        ∧ is_playing x' = false.
Proof.
  intros Hn. unfold exec, stop_sound. run.
  rewrite (run_sounds_getitem _ _ _ Hn). run.
  assert (∃ st, (match channel x with
                 | Some c => Channel_stop c
                 | None => ret tt
                 end) s = (Ok tt, st) ∧ sounds st = sounds s)
    as (st & -> & Hst).
  { destruct (channel x); unfold Channel_stop; run; by eexists. }
  run.
  match goal with
  | |- context [button_configure n "Play" ?st'] =>
      destruct (button_configure_sound n "Play" st'
                  (with_is_playing false x))
        as (r & b & ->)
  end.
  { cbn [sounds with_sounds]. rewrite dict_get_alter_eq, Hst, Hn. done. }
  destruct r as [[]|e]; run; cbn [snd sounds with_message with_sounds];
    rewrite !dict_get_alter_eq, Hst, Hn; eexists; (split; [reflexivity|done]).
Qed.

(** The slot after [play_sound]: playing when [play_sound] could mark it,
    and as it was otherwise. *)
Lemma play_sound_slot s n x :
  dict_get n (sounds s) = Some x →
  ∃ x', dict_get n (sounds (exec (play_sound n) s)) = Some x'
        ∧ volume x' = volume x
        ∧ effects x' = effects x
        ∧ is_playing x' = if can_play s x then true else is_playing x.
Proof.
  intros Hn. unfold can_play.
  destruct (decide (filename x ∈ sound_files s)) as [Hf|Hf];
    [rewrite bool_decide_eq_true_2 by done
    |rewrite bool_decide_eq_false_2 by done].
  - destruct (first_idle 0 (mixer s)) as [c|] eqn:Hc.
    + destruct (is_number (volume x)) eqn:Hv.
      * destruct (play_sound_channel s n x c Hn Hf Hc Hv)
          as (_ & x' & ? & ? & ? & ? & ?).
        exists x'. by repeat split.
      * exists x. unfold exec, play_sound. run.
        rewrite (run_sounds_getitem _ _ _ Hn). run.
        rewrite (run_mixer_Sound _ _ Hf). run.
        rewrite run_find_channel, Hc. run.
        unfold Channel_play, Channel_set_volume. rewrite Hv. run.
        unfold raise. run. by cbn.
    + exists x. unfold exec, play_sound. run.
      rewrite (run_sounds_getitem _ _ _ Hn). run.
      rewrite (run_mixer_Sound _ _ Hf). run.
      rewrite run_find_channel, Hc. run. by cbn.
  - exists x. unfold exec, play_sound. run.
    rewrite (run_sounds_getitem _ _ _ Hn). run.
    destruct (run_mixer_Sound_missing _ s Hf) as [e ->]. run. by cbn.
Qed.

(** A method that assigns only to the slot [m] leaves the slot [n]. *)
Ltac slot_side :=
  first
    [ reflexivity
    | unfold same; cbn [sounds with_sounds]; by apply dict_get_alter_ne ].

Lemma preserves_slot_play n m :
  n ≠ m → preserves (λ s, dict_get n (sounds s)) (play_sound m).
Proof. intros Hn. unfold play_sound. stable_with fail slot_side. Qed.

Lemma preserves_slot_stop n m :
  n ≠ m → preserves (λ s, dict_get n (sounds s)) (stop_sound m).
Proof. intros Hn. unfold stop_sound. stable_with fail slot_side. Qed.

Lemma preserves_slot_apply n kv :
  n ≠ fst kv → preserves (λ s, dict_get n (sounds s)) (apply_settings kv).
Proof.
  destruct kv as [m entry]. cbn [fst]. intros Hn. unfold apply_settings.
  stable_with
    ltac:(first [ apply preserves_slot_play; done
                | apply preserves_slot_stop; done ])
    slot_side.
Qed.

(** [load_preset] only adds objects to the store. *)
Ltac grows_side :=
  unfold store_grows; cbn [objects with_objects with_sounds with_mixer
                             with_message];
  first [ reflexivity | by apply prefix_app_r ].

Lemma store_grows_play n : stable store_grows (play_sound n).
Proof. unfold play_sound. stable_with fail grows_side. Qed.

Lemma store_grows_stop n : stable store_grows (stop_sound n).
Proof. unfold stop_sound. stable_with fail grows_side. Qed.

Lemma store_grows_apply kv : stable store_grows (apply_settings kv).
Proof.
  destruct kv as [m entry]. unfold apply_settings.
  stable_with
    ltac:(first [ apply store_grows_play | apply store_grows_stop ])
    grows_side.
Qed.

Lemma dict_mem_keys {V W} k (d : list (string * V)) (d' : list (string * W)) :
  dict_keys d' = dict_keys d → dict_mem k d' = dict_mem k d.
Proof.
  intros Hk. destruct (dict_mem k d) eqn:E.
  - apply dict_mem_true. rewrite Hk. by apply dict_mem_true.
  - apply dict_mem_false. rewrite Hk. by apply dict_mem_false.
Qed.

Lemma py_deref_plain h v : plain v = true → py_deref h v = v.
Proof. by destruct v. Qed.

Lemma truthy_plain h h' v : plain v = true → truthy h v = truthy h' v.
Proof. intros H. unfold truthy. by rewrite !py_deref_plain. Qed.

(** A container stays where it is when the store grows. *)
Lemma py_deref_grows h h' v :
  h `prefix_of` h' → is_container (py_deref h v) = true →
  py_deref h' v = py_deref h v.
Proof.
  intros Hp Hc. destruct v; try done. cbn [py_deref] in *.
  destruct (h !! r) as [o|] eqn:Ho; [|done].
  by rewrite (prefix_lookup_Some _ _ _ _ Ho Hp).
Qed.

Lemma entry_ok_grows h h' entry :
  h `prefix_of` h' → entry_ok h entry = true → entry_ok h' entry = true.
Proof.
  intros Hp. destruct entry as [| | | | | |d|]; try done. cbn [entry_ok].
  destruct (dict_get "volume" d); [|done].
  destruct (dict_get "effects" d) as [eff|]; [|done].
  destruct (dict_get "is_playing" d); [|done].
  intros H. apply andb_prop in H as [Hc Hpl].
  rewrite (py_deref_grows _ _ _ Hp Hc), Hc. done.
Qed.

Lemma run_py_getitem_dict d k x s :
  dict_get k d = Some x → py_getitem (PDict d) k s = (Ok x, s).
Proof. intros H. unfold py_getitem. run. cbn [py_deref]. by rewrite H. Qed.

Lemma run_py_copy v s :
  is_container (py_deref (objects s) v) = true →
  py_copy v s
  = (Ok (length (objects s)),
     with_objects (λ h, h ++ [py_deref (objects s) v]) s).
Proof.
  intros H. unfold py_copy. run.
  destruct (py_deref (objects s) v); done.
Qed.

(** One round of the loop of [load_preset], for a slot of the registry and
    an entry that is well formed. *)
Lemma apply_settings_slot s n d x v eff pl :
  dict_get n (sounds s) = Some x →
  dict_get "volume" d = Some v →
  dict_get "effects" d = Some eff →
  dict_get "is_playing" d = Some pl →
  is_container (py_deref (objects s) eff) = true →
  ∃ s' x',
    apply_settings (n, PDict d) s = (Ok tt, s')
    ∧ dict_get n (sounds s') = Some x'
    ∧ volume x' = v
    ∧ (length (objects s) ≤ effects x')%nat
    ∧ objects s' !! effects x' = Some (py_deref (objects s) eff)
    ∧ is_playing x'
      = if truthy (objects s') pl
        then (if can_play s (with_volume v x) then true else is_playing x)
        else false.
Proof.
  intros Hn Hv He Hp Hc. unfold apply_settings. run.
  assert (dict_mem n (sounds s) = true) as ->.
  { unfold dict_mem. by rewrite Hn. }
  run. rewrite (run_py_getitem_dict _ _ _ _ Hv). run.
  rewrite (run_py_getitem_dict _ _ _ _ He). run.
  rewrite run_py_copy by exact Hc. run.
  rewrite (run_py_getitem_dict _ _ _ _ Hp). run.
  cbn [objects with_sounds with_objects].
  set (s3 := with_sounds (dict_alter (with_effects (length (objects s))) n)
               (with_objects (λ h, h ++ [py_deref (objects s) eff])
                  (with_sounds (dict_alter (with_volume v) n) s))).
  assert (dict_get n (sounds s3)
          = Some (with_effects (length (objects s)) (with_volume v x)))
    as Hn3.
  { subst s3. cbn [sounds with_sounds with_objects].
    rewrite !dict_get_alter_eq, Hn. done. }
  assert (objects s3 = objects s ++ [py_deref (objects s) eff]) as Ho3
    by done.
  assert (objects s3 !! length (objects s) = Some (py_deref (objects s) eff))
    as Hcopy.
  { rewrite Ho3. by rewrite list_lookup_middle. }
  rewrite <- Ho3.
  destruct (truthy (objects s3) pl) eqn:Ht.
  - destruct (play_sound_returns n s3) as ([] & s' & Hrun).
    destruct (play_sound_slot s3 n _ Hn3) as (x' & Hx' & Hvol & Heff & Hpl).
    unfold exec in Hx'. rewrite Hrun in *. cbn [snd] in Hx'.
    exists s', x'. split; [done|]. split; [done|]. split; [done|].
    pose proof (preserves_objects_play n s3) as Hobj.
    unfold same, exec in Hobj. rewrite Hrun in Hobj. cbn [snd] in Hobj.
    rewrite Hobj, Heff. cbn [effects with_effects with_volume].
    split; [lia|]. split; [done|]. rewrite Ht, Hpl. done.
  - destruct (stop_sound_returns n s3) as ([] & s' & Hrun).
    destruct (stop_sound_slot s3 n _ Hn3) as (x' & Hx' & Hvol & Heff & Hpl).
    unfold exec in Hx'. rewrite Hrun in *. cbn [snd] in Hx'.
    exists s', x'. split; [done|]. split; [done|]. split; [done|].
    pose proof (preserves_objects_stop n s3) as Hobj.
    unfold same, exec in Hobj. rewrite Hrun in Hobj. cbn [snd] in Hobj.
    rewrite Hobj, Heff. cbn [effects with_effects with_volume].
    split; [lia|]. split; [done|]. rewrite Ht. done.
Qed.

(** A round for a name that is not in the registry does nothing. *)
Lemma apply_settings_unknown k entry s :
  k ∉ sound_names s → apply_settings (k, entry) s = (Ok tt, s).
Proof.
  intros Hk. unfold apply_settings. run.
  apply dict_mem_false in Hk. by rewrite Hk.
Qed.

(** A round returns when the entry of a registered slot is well formed. *)
Lemma apply_settings_returns kv s :
  (dict_mem (fst kv) (sounds s) = true → entry_ok (objects s) (snd kv) = true) →
  ∃ s', apply_settings kv s = (Ok tt, s').
Proof.
  destruct kv as [k entry]. cbn [fst snd]. intros Hok.
  destruct (dict_mem k (sounds s)) eqn:Hk.
  - specialize (Hok eq_refl). unfold dict_mem in Hk.
    destruct (dict_get k (sounds s)) as [x|] eqn:Hx; [|done].
    destruct entry as [| | | | | |d|]; try done. cbn [entry_ok] in Hok.
    destruct (dict_get "volume" d) as [v|] eqn:Hv; [|done].
    destruct (dict_get "effects" d) as [eff|] eqn:He; [|done].
    destruct (dict_get "is_playing" d) as [pl|] eqn:Hp; [|done].
    apply andb_prop in Hok as [Hc _].
    destruct (apply_settings_slot s k d x v eff pl Hx Hv He Hp Hc)
      as (s' & _ & Hrun & _).
    by exists s'.
  - exists s. apply apply_settings_unknown. by apply dict_mem_false.
Qed.

Lemma for_each_returns l s :
  Forall (λ kv, dict_mem (fst kv) (sounds s) = true →
                entry_ok (objects s) (snd kv) = true) l →
  ∃ s', for_each l apply_settings s = (Ok tt, s').
Proof.
  revert s. induction l as [|kv l IH]; intros s Hl.
  - by exists s.
  - apply Forall_cons in Hl as [Hkv Hl].
    destruct (apply_settings_returns kv s Hkv) as (s1 & Hrun).
    cbn [for_each]. run. rewrite Hrun. run.
    apply IH. eapply Forall_impl; [exact Hl|].
    intros [k e] Hke Hmem. cbn [fst snd] in *.
    pose proof (preserves_names_apply kv s) as Hnames.
    pose proof (store_grows_apply kv s) as Hgrow.
    unfold same, store_grows, exec, sound_names in *.
    rewrite Hrun in *. cbn [snd] in *.
    rewrite (dict_mem_keys _ _ _ Hnames) in Hmem.
    eapply entry_ok_grows; [exact Hgrow|]. auto.
Qed.

Lemma run_for_each_app {A} (l1 l2 : list A) body s :
  for_each (l1 ++ l2) body s
  = match for_each l1 body s with
    | (Ok _, s1) => for_each l2 body s1
    | (Raise e, s1) => (Raise e, s1)
    end.
Proof.
  revert s. induction l1 as [|x l1 IH]; intros s; [done|].
  cbn [app for_each]. run. destruct (body x s) as [[[]|e] s1]; [|done].
  run. apply IH.
Qed.

(** The rounds for other names leave the slot [n]. *)
Lemma preserves_slot_for_each n l :
  n ∉ dict_keys l →
  preserves (λ s, dict_get n (sounds s)) (for_each l apply_settings).
Proof.
  intros Hn. apply stable_for_each_Forall; [tc_solve|].
  apply Forall_forall. intros kv Hin. apply preserves_slot_apply.
  intros ->. apply Hn. unfold dict_keys. by apply list_elem_of_fmap_2.
Qed.

Lemma store_grows_for_each l : stable store_grows (for_each l apply_settings).
Proof. apply stable_for_each; [tc_solve|]. apply store_grows_apply. Qed.

Lemma run_load_preset s p items :
  preset_var s ≠ "" →
  dict_get (preset_var s) (presets s) = Some p →
  settings p = PDict items →
  load_preset s = for_each items apply_settings s.
Proof.
  intros Hne Hp Hset. unfold load_preset. run.
  destruct (preset_var s) as [|a name] eqn:Hname; [done|].
  cbn [nonempty negb orb]. unfold dict_mem. rewrite Hp. cbn [negb].
  unfold presets_getitem. run. rewrite Hp. run. rewrite Hset.
  rewrite run_py_items_dict. run. done.
Qed.




(** * More of the mixer *)

(** ** Stopping, toggling and the channels *)

(** The state [stop_sound] leaves for a slot of the registry. *)
Lemma stop_sound_state s n x :
  dict_get n (sounds s) = Some x →
  ∃ b s',
    stop_sound n s = (Ok tt, s')
    ∧ sounds s'
      = dict_alter (with_button b) n
          (dict_alter (with_is_playing false) n (sounds s))
    ∧ mixer s'
      = match channel x with
        | Some c =>
            alter (λ ch, mkChannel false None (chan_loops ch) (chan_volume ch))
                  c (mixer s)
        | None => mixer s
        end
    ∧ objects s' = objects s
    ∧ presets s' = presets s
    ∧ sound_files s' = sound_files s
    ∧ presets_json s' = presets_json s.
Proof.
  intros Hn. unfold stop_sound. run.
  rewrite (run_sounds_getitem _ _ _ Hn). run.
  set (s1 := match channel x with
             | Some c =>
                 with_mixer
                   (alter (λ ch, mkChannel false None (chan_loops ch)
                                   (chan_volume ch)) c) s
             | None => s
             end).
  assert ((match channel x with
           | Some c => Channel_stop c
           | None => ret tt
           end) s = (Ok tt, s1)) as ->.
  { subst s1. by destruct (channel x). }
  assert (sounds s1 = sounds s ∧ objects s1 = objects s
          ∧ presets s1 = presets s ∧ sound_files s1 = sound_files s
          ∧ presets_json s1 = presets_json s
          ∧ mixer s1 = match channel x with
                       | Some c =>
                           alter (λ ch, mkChannel false None (chan_loops ch)
                                          (chan_volume ch)) c (mixer s)
                       | None => mixer s
                       end) as (Hs & Ho & Hp & Hf & Hj & Hm).
  { subst s1. by destruct (channel x). }
  run.
  match goal with
  | |- context [button_configure n "Play" ?st] =>
      destruct (button_configure_sound n "Play" st (with_is_playing false x))
        as (r & b & ->)
  end.
  { cbn [sounds with_sounds]. rewrite dict_get_alter_eq, Hs, Hn. done. }
  exists b. destruct r as [[]|e]; run; eexists; (split; [reflexivity|]);
    cbn [sounds mixer objects presets sound_files presets_json
         with_message with_sounds]; rewrite Hs; by repeat split.
Qed.

Lemma dict_get_alter_alter {V} (f g : V → V) n m (d : list (string * V)) :
  dict_get m (dict_alter f n (dict_alter g n d))
  = if decide (m = n) then f <$> (g <$> dict_get n d) else dict_get m d.
Proof.
  rewrite dict_get_alter. case_decide.
  - by rewrite dict_get_alter_eq.
  - by rewrite dict_get_alter_ne.
Qed.

(** X1.  [stop_sound] on a slot of the registry returns without raising.
    Afterwards the slot is not playing; its file, volume, effects and
    channel handle are as before (the slot keeps the handle of the channel
    it has stopped); the channel of the slot, if it has one, is idle with no
    sound on it; every other channel, every other slot, the effects in the
    store, the presets and the presets file are unchanged. *)
Theorem stop_sound_stops (s : AmbientSoundMixer) (n : string) (x : Sound) :
  dict_get n (sounds s) = Some x →
  let s' := exec (stop_sound n) s in
  stop_sound n s = (Ok tt, s')
  ∧ (∃ x', dict_get n (sounds s') = Some x'
           ∧ is_playing x' = false
           ∧ filename x' = filename x
           ∧ volume x' = volume x
           ∧ effects x' = effects x
           ∧ channel x' = channel x)
  ∧ (∀ c ch, channel x = Some c → mixer s !! c = Some ch →
       mixer s' !! c
       = Some (mkChannel false None (chan_loops ch) (chan_volume ch)))
  ∧ (∀ c, channel x ≠ Some c → mixer s' !! c = mixer s !! c)
  ∧ (∀ m, m ≠ n → dict_get m (sounds s') = dict_get m (sounds s))
  ∧ objects s' = objects s
  ∧ presets s' = presets s
  ∧ presets_json s' = presets_json s.
Proof.
  intros Hn s'.
  destruct (stop_sound_state s n x Hn)
    as (b & s1 & Hrun & Hs & Hm & Ho & Hp & _ & Hj).
  assert (s' = s1) as -> by (subst s'; unfold exec; by rewrite Hrun).
  split; [done|]. split.
  { eexists. split.
    - rewrite Hs, dict_get_alter_alter, decide_True by done.
      rewrite Hn. reflexivity.
    - done. }
  split.
  { intros c ch Hc Hch. rewrite Hm, Hc, list_lookup_alter_eq, Hch. done. }
  split.
  { intros c Hc. rewrite Hm. destruct (channel x) as [c0|]; [|done].
    apply list_lookup_alter_ne. congruence. }
  split.
  { intros m Hmn. rewrite Hs, dict_get_alter_alter. by rewrite decide_False. }
  done.
Qed.

Lemma stop_sound_stops_witness :
  let s := exec (toggle_sound "Rain")
             (started all_sound_files None "2024-05-01T10:00:00") in
  let s' := exec (stop_sound "Rain") s in
  busy <$> mixer s !! 0 = Some true
  ∧ busy <$> mixer s' !! 0 = Some false
  ∧ is_playing <$> dict_get "Rain" (sounds s') = Some false.
Proof.
  pose proof (stop_sound_stops
    (exec (toggle_sound "Rain")
       (started all_sound_files None "2024-05-01T10:00:00"))
    "Rain"
    (mkSound "sounds/rain.mp3" (PFloat 1) (Some 0) true 0 (Some "Stop"))
    eq_refl) as (_ & (x' & Hx & Hp & _) & Hc & _).
  split; [reflexivity|]. split.
  - rewrite (Hc 0 (mkChannel true (Some "sounds/rain.mp3") (-1) (PFloat 1))
               eq_refl eq_refl). reflexivity.
  - rewrite Hx. cbn. by rewrite Hp.
Defined.

(** The state [play_sound] leaves when it has a channel. *)
Lemma play_sound_state s n x c :
  dict_get n (sounds s) = Some x →
  filename x ∈ sound_files s →
  first_idle 0 (mixer s) = Some c →
  is_number (volume x) = true →
  ∃ b s',
    play_sound n s = (Ok tt, s')
    ∧ sounds s'
      = dict_alter (with_button b) n
          (dict_alter (with_is_playing true) n
             (dict_alter (with_channel (Some c)) n (sounds s)))
    ∧ mixer s'
      = alter (λ ch, mkChannel (busy ch) (chan_sound ch) (chan_loops ch)
                       (volume x)) c
          (<[c:=mkChannel true (Some (filename x)) (-1) (PFloat 1)]> (mixer s))
    ∧ objects s' = objects s
    ∧ presets s' = presets s
    ∧ sound_files s' = sound_files s.
Proof.
  intros Hn Hf Hc Hv. unfold play_sound. run.
  rewrite (run_sounds_getitem _ _ _ Hn). run.
  rewrite (run_mixer_Sound _ _ Hf). run.
  rewrite run_find_channel, Hc. run.
  unfold Channel_play. run.
  rewrite (run_Channel_set_volume _ _ _ Hv). run.
  match goal with
  | |- context [button_configure n "Stop" ?st] =>
      destruct (button_configure_sound n "Stop" st
                  (with_is_playing true (with_channel (Some c) x)))
        as (r & b & ->)
  end.
  { cbn [sounds with_sounds with_mixer].
    rewrite !dict_get_alter_eq, Hn. done. }
  exists b. destruct r as [[]|e]; run; eexists; (split; [reflexivity|]);
    by repeat split.
Qed.

Lemma run_toggle_sound s n x :
  dict_get n (sounds s) = Some x →
  toggle_sound n s
  = if is_playing x then stop_sound n s else play_sound n s.
Proof.
  intros Hn. unfold toggle_sound. run.
  rewrite (run_sounds_getitem _ _ _ Hn). run. by destruct (is_playing x).
Qed.

(** X2.  Toggling a slot on and off again gives the channel back.  For a
    slot that is not playing, whose file pygame loads and whose volume is a
    number, when a channel is free: after two calls of [toggle_sound] the
    slot is again not playing, with its volume and effects as before and
    the handle of the channel it used; every channel is busy or idle as it
    was before, so [find_channel] finds the same channel again; the effects
    in the store are unchanged. *)
Theorem toggle_twice_frees_channel
    (s : AmbientSoundMixer) (n : string) (x : Sound) (c : nat) :
  dict_get n (sounds s) = Some x →
  is_playing x = false →
  filename x ∈ sound_files s →
  first_idle 0 (mixer s) = Some c →
  is_number (volume x) = true →
  let s1 := exec (toggle_sound n) s in
  let s2 := exec (toggle_sound n) s1 in
  (∃ x1, dict_get n (sounds s1) = Some x1 ∧ is_playing x1 = true)
  ∧ (∃ x2, dict_get n (sounds s2) = Some x2
           ∧ is_playing x2 = false
           ∧ volume x2 = volume x
           ∧ effects x2 = effects x
           ∧ channel x2 = Some c)
  ∧ busy <$> mixer s2 = busy <$> mixer s
  ∧ first_idle 0 (mixer s2) = Some c
  ∧ objects s2 = objects s.
Proof.
  intros Hn Hp Hf Hc Hv s1 s2.
  destruct (play_sound_state s n x c Hn Hf Hc Hv)
    as (b1 & s1' & Hrun1 & Hs1 & Hm1 & Ho1 & _ & _).
  assert (s1 = s1') as ->.
  { subst s1. unfold exec. by rewrite (run_toggle_sound _ _ _ Hn), Hp, Hrun1. }
  assert (dict_get n (sounds s1')
          = Some (with_button b1 (with_is_playing true
                                    (with_channel (Some c) x)))) as Hn1.
  { rewrite Hs1, dict_get_alter_alter, decide_True by done.
    rewrite dict_get_alter_eq, Hn. done. }
  destruct (stop_sound_state s1' n _ Hn1)
    as (b2 & s2' & Hrun2 & Hs2 & Hm2 & Ho2 & _ & _).
  assert (s2 = s2') as ->.
  { subst s2. unfold exec. by rewrite (run_toggle_sound _ _ _ Hn1), Hrun2. }
  cbn [channel with_button with_is_playing with_channel] in Hm2.
  destruct (first_idle_Some _ _ _ Hc) as (_ & Hlt & Hidle).
  rewrite Nat.sub_0_r in Hlt, Hidle.
  assert (busy <$> mixer s2' = busy <$> mixer s) as Hbusy.
  { apply list_eq. intros i. rewrite !list_lookup_fmap, Hm2, Hm1.
    destruct (decide (i = c)) as [->|Hi].
    - rewrite !list_lookup_alter_eq, list_lookup_insert_eq by done.
      cbn. by rewrite Hidle.
    - rewrite !list_lookup_alter_ne, list_lookup_insert_ne by done. done. }
  split; [by eexists|]. split.
  { eexists. split.
    - rewrite Hs2, dict_get_alter_alter, decide_True by done.
      rewrite Hn1. reflexivity.
    - done. }
  split; [done|]. split; [|congruence].
  rewrite <- Hc. clear -Hbusy. revert Hbusy.
  generalize (mixer s2') (mixer s) 0. intros l1.
  induction l1 as [|a l1 IH]; intros [|a' l2] i Hl; try done.
  cbn in Hl. injection Hl as Ha Hl. cbn [first_idle]. rewrite Ha.
  destruct (busy a'); [|done]. by apply IH.
Qed.

Lemma toggle_twice_frees_channel_witness :
  let s := started all_sound_files None "2024-05-01T10:00:00" in
  let s2 := exec (toggle_sound "Ocean") (exec (toggle_sound "Ocean") s) in
  busy <$> mixer s2 = busy <$> mixer s
  ∧ first_idle 0 (mixer s2) = Some 0.
Proof.
  pose proof (toggle_twice_frees_channel
    (started all_sound_files None "2024-05-01T10:00:00") "Ocean"
    (mkSound "sounds/ocean.mp3" (PFloat 1) None false 4 (Some "Play")) 0
    eq_refl eq_refl) as H.
  destruct H as (_ & _ & Hb & Hi & _).
  - vm_compute. do 4 apply list_elem_of_further. apply list_elem_of_here.
  - reflexivity.
  - reflexivity.
  - split; [exact Hb|exact Hi].
Defined.

(** ** Names that are not in the registry *)

(** X3.  For a name that is not in the registry, [toggle_sound],
    [update_effect] and [on_volume_change] raise [KeyError] and change
    nothing. *)
Theorem unknown_sound_raises
    (s : AmbientSoundMixer) (n e : string) (v : float) :
  n ∉ sound_names s →
  toggle_sound n s = (Raise (KeyError n), s)
  ∧ update_effect n e v s = (Raise (KeyError n), s)
  ∧ on_volume_change n v s = (Raise (KeyError n), s).
Proof.
  intros Hn. apply dict_get_None in Hn.
  unfold toggle_sound, update_effect, on_volume_change. run.
  rewrite (run_sounds_getitem_None _ _ Hn). by run.
Qed.

Lemma unknown_sound_raises_witness :
  let s := started all_sound_files None "2024-05-01T10:00:00" in
  toggle_sound "Thunder" s = (Raise (KeyError "Thunder"), s)
  ∧ update_effect "Thunder" "reverb" 0.5 s = (Raise (KeyError "Thunder"), s)
  ∧ on_volume_change "Thunder" 0.5 s = (Raise (KeyError "Thunder"), s).
Proof.
  apply (unknown_sound_raises
           (started all_sound_files None "2024-05-01T10:00:00")
           "Thunder" "reverb" 0.5).
  apply (bool_decide_unpack _). by vm_compute.
Defined.



(** ** When [play_sound] cannot play, and when the slot already plays *)

(** X5.  For a slot of the registry: when pygame cannot load the file of
    the slot, [play_sound] only shows the error box "Playback Error"; when
    the file loads but every channel is busy, it only shows the warning "No
    available audio channels".  In both cases it returns without raising
    and the slot, the channels, the store and the presets are as before. *)
Theorem play_sound_cannot_play
    (s : AmbientSoundMixer) (n : string) (x : Sound) :
  dict_get n (sounds s) = Some x →
  (filename x ∉ sound_files s →
   ∃ msg, play_sound n s
          = (Ok tt, with_message (showerror "Playback Error" msg) s))
  ∧ (filename x ∈ sound_files s → first_idle 0 (mixer s) = None →
     play_sound n s
     = (Ok tt, with_message
                 (showwarning "Warning" "No available audio channels") s)).
Proof.
  intros Hn. split.
  - intros Hf. unfold play_sound. run.
    rewrite (run_sounds_getitem _ _ _ Hn). run.
    destruct (run_mixer_Sound_missing _ s Hf) as [e ->]. run. by eexists.
  - intros Hf Hc. unfold play_sound. run.
    rewrite (run_sounds_getitem _ _ _ Hn). run.
    rewrite (run_mixer_Sound _ _ Hf). run.
    rewrite run_find_channel, Hc. by run.
Qed.

Lemma play_sound_cannot_play_witness :
  ∃ msg, play_sound "Rain" silent_session
         = (Ok tt, with_message (showerror "Playback Error" msg)
                     silent_session).
Proof.
  apply (proj1 (play_sound_cannot_play silent_session "Rain"
                  (mkSound "sounds/rain.mp3" (PFloat 1) None false 0
                           (Some "Play")) eq_refl)).
  vm_compute. apply not_elem_of_nil.
Defined.



(** ** Changing an effect *)

Lemma run_py_setitem_dict r k v d s :
  objects s !! r = Some (PDict d) →
  py_setitem r k v s
  = (Ok tt, with_objects (λ h, <[r:=PDict (dict_set k v d)]> h) s).
Proof. intros H. unfold py_setitem. run. by rewrite H. Qed.

(** X7.  For a slot of the registry whose effects object is a dictionary,
    [update_effect] stores the value under the effect name in that
    dictionary and leaves its other entries; no other object of the store
    changes, nor do the presets; when the slot is not playing,
    [update_effect] returns without raising and the slots and the channels
    are unchanged as well. *)
Theorem update_effect_sets_entry
    (s : AmbientSoundMixer) (n e : string) (v : float) (x : Sound)
    (d : list (string * pyval)) :
  dict_get n (sounds s) = Some x →
  objects s !! effects x = Some (PDict d) →
  let s' := exec (update_effect n e v) s in
  (∃ d', objects s' !! effects x = Some (PDict d')
         ∧ dict_get e d' = Some (PFloat v)
         ∧ ∀ k, k ≠ e → dict_get k d' = dict_get k d)
  ∧ (∀ r, r ≠ effects x → objects s' !! r = objects s !! r)
  ∧ presets s' = presets s
  ∧ (is_playing x = false →
     update_effect n e v s = (Ok tt, s')
     ∧ sounds s' = sounds s ∧ mixer s' = mixer s).
Proof.
  intros Hn Hd s'.
  assert (objects s' = <[effects x:=PDict (dict_set e (PFloat v) d)]> (objects s))
    as Ho.
  { subst s'. unfold update_effect. rewrite exec_bind.
    rewrite (run_sounds_getitem _ _ _ Hn). rewrite exec_bind.
    rewrite (run_py_setitem_dict _ _ _ _ _ Hd).
    destruct (is_playing x); [|done].
    rewrite exec_bind.
    match goal with
    | |- context [stop_sound n ?st] =>
        pose proof (preserves_objects_stop n st) as H1;
        destruct (stop_sound_returns n st) as ([] & s1 & Hrun)
    end.
    unfold same, exec in H1. rewrite Hrun in *. cbn [snd] in H1.
    rewrite preserves_objects_play, H1. done. }
  split.
  { exists (dict_set e (PFloat v) d). split.
    - rewrite Ho. apply list_lookup_insert_eq. by apply lookup_lt_Some in Hd.
    - split.
      + rewrite dict_get_set. by rewrite decide_True.
      + intros k Hk. rewrite dict_get_set. by rewrite decide_False. }
  split.
  { intros r Hr. rewrite Ho. by apply list_lookup_insert_ne. }
  split; [apply preserves_presets_update_effect|].
  intros Hp. subst s'. unfold exec, update_effect. run.
  rewrite (run_sounds_getitem _ _ _ Hn). run.
  rewrite (run_py_setitem_dict _ _ _ _ _ Hd). run. rewrite Hp. by run.
Qed.

Lemma update_effect_sets_entry_witness :
  let s := started all_sound_files None "2024-05-01T10:00:00" in
  let s' := exec (update_effect "Forest" "reverb" 0.75) s in
  objects s' !! 3
  = Some (PDict [("reverb", PFloat 0.75); ("eq_low", PFloat 1);
                 ("eq_mid", PFloat 1); ("eq_high", PFloat 1)])
  ∧ objects s' !! 0 = objects s !! 0.
Proof.
  pose proof (update_effect_sets_entry
    (started all_sound_files None "2024-05-01T10:00:00")
    "Forest" "reverb" 0.75
    (mkSound "sounds/forest.mp3" (PFloat 1) None false 3 (Some "Play"))
    [("reverb", PFloat 0); ("eq_low", PFloat 1);
     ("eq_mid", PFloat 1); ("eq_high", PFloat 1)]
    eq_refl eq_refl) as (_ & Hr & _).
  split; [reflexivity|]. apply (Hr 0). done.
Defined.





(** ** The effects never reach the mixer *)

Lemma blind_ret {A} (a : A) : store_blind (ret a).
Proof. done. Qed.

Lemma blind_raise {A} e : store_blind (@raise A e).
Proof. done. Qed.

Lemma blind_gets {A} (g : AmbientSoundMixer → A) :
  (∀ f s, g (with_objects f s) = g s) → store_blind (gets g).
Proof. intros H f s. unfold gets. by rewrite H. Qed.

Lemma blind_modify h :
  (∀ f s, h (with_objects f s) = with_objects f (h s)) →
  store_blind (modify h).
Proof. intros H f s. unfold modify. by rewrite H. Qed.

Lemma blind_bind {A B} (m : M A) (k : A → M B) :
  store_blind m → (∀ a, store_blind (k a)) → store_blind (m ≫= k).
Proof.
  intros Hm Hk f s. rewrite !run_bind, Hm.
  destruct (m s) as [[a|e] s']; cbn [fst snd]; [apply Hk|done].
Qed.

Lemma blind_try {A} (m : M A) h :
  store_blind m → (∀ e, store_blind (h e)) → store_blind (try_except m h).
Proof.
  intros Hm Hh f s. rewrite !run_try, Hm.
  destruct (m s) as [[a|e] s']; cbn [fst snd]; [done|apply Hh].
Qed.

Ltac blind_tac :=
  repeat first
    [ apply blind_ret | apply blind_raise
    | apply blind_gets; reflexivity
    | apply blind_modify; reflexivity
    | apply blind_bind; [|intros ?]
    | apply blind_try; [|intros ?]
    | match goal with
      | |- store_blind (match ?x with _ => _ end) => destruct x
      end
    | match goal with
      | |- store_blind ?m =>
          let m' := eval red in m in progress change (store_blind m')
      end ].

Lemma blind_play n : store_blind (play_sound n).
Proof. unfold play_sound. blind_tac. Qed.

Lemma blind_stop n : store_blind (stop_sound n).
Proof. unfold stop_sound. blind_tac. Qed.

(** X9.  The value given to [update_effect] never reaches the mixer or the
    slots: whatever the state, the name, the effect and the two values, the
    channels, the slots and the result (returning or raising) after
    [update_effect] with one value are those after [update_effect] with the
    other.  Playing, stopping and toggling do not look into the store
    either, so no effects dictionary has any influence on what is played. *)
Theorem effects_never_reach_mixer
    (s : AmbientSoundMixer) (n e : string) (v v' : float) :
  (mixer (exec (update_effect n e v) s)
   = mixer (exec (update_effect n e v') s)
   ∧ sounds (exec (update_effect n e v) s)
     = sounds (exec (update_effect n e v') s)
   ∧ fst (update_effect n e v s) = fst (update_effect n e v' s))
  ∧ store_blind (play_sound n)
  ∧ store_blind (stop_sound n)
  ∧ store_blind (toggle_sound n).
Proof.
  split.
  - unfold exec, update_effect. run.
    destruct (dict_get n (sounds s)) as [x|] eqn:Hn.
    2:{ rewrite (run_sounds_getitem_None _ _ Hn). by run. }
    rewrite (run_sounds_getitem _ _ _ Hn). run.
    unfold py_setitem. run.
    destruct (objects s !! effects x) as [[| | | | | |d|]|]; try by run.
    run. destruct (is_playing x); [|by run].
    assert (store_blind (stop_sound n;; play_sound n)) as Hb.
    { apply blind_bind; [apply blind_stop|]. intros _. apply blind_play. }
    rewrite !Hb. by cbn.
  - split; [apply blind_play|]. split; [apply blind_stop|].
    unfold toggle_sound. apply blind_bind; [blind_tac|]. intros x.
    destruct (is_playing x); [apply blind_stop|apply blind_play].
Qed.

(** ** No two slots share an effects object *)

#[global] Instance keeps_apart_preorder : PreOrder keeps_apart.
Proof.
  split.
  - intros s H. exact H.
  - intros s1 s2 s3 H12 H23 H. apply H23, H12, H.
Qed.

Lemma slot_effects_alter f n s :
  (∀ x, effects (f x) = effects x) →
  slot_effects (with_sounds (dict_alter f n) s) = slot_effects s.
Proof.
  intros Hf. unfold slot_effects. cbn [sounds with_sounds].
  induction (sounds s) as [|[k x] reg IH]; [done|].
  cbn [dict_alter]. case_decide; cbn [map snd].
  - by rewrite Hf.
  - by rewrite IH.
Qed.

Lemma effects_ok_lt s k x :
  effects_ok s = true → (k, x) ∈ sounds s →
  (effects x < length (objects s))%nat.
Proof.
  intros Hok Hin. destruct (effects_ok_lookup s k x Hok Hin) as (o & Ho & _).
  by apply lookup_lt_Some in Ho.
Qed.

(** A new reference in place of the one of [n] keeps the references
    distinct. *)
Lemma NoDup_alter_effects (L : nat) n (reg : list (string * Sound)) :
  Forall (λ kv, (effects (snd kv) < L)%nat) reg →
  NoDup (map (λ kv, effects (snd kv)) reg) →
  NoDup (map (λ kv, effects (snd kv)) (dict_alter (with_effects L) n reg))
  ∧ Forall (λ r, (r ≤ L)%nat)
      (map (λ kv, effects (snd kv)) (dict_alter (with_effects L) n reg))
  ∧ (∀ r, r ∈ map (λ kv, effects (snd kv))
                (dict_alter (with_effects L) n reg) →
          r = L ∨ r ∈ map (λ kv, effects (snd kv)) reg).
Proof.
  induction reg as [|[k x] reg IH]; intros Hlt Hnd.
  - cbn. split; [constructor|]. split; [constructor|]. intros r Hr.
    by apply elem_of_nil in Hr.
  - apply Forall_cons in Hlt as [Hx Hlt]. cbn [map snd] in Hnd, Hx.
    apply NoDup_cons in Hnd as [Hnx Hnd].
    cbn [dict_alter]. case_decide; cbn [map snd effects with_effects].
    + split.
      { apply NoDup_cons. split; [|done]. intros Hin.
        apply list_elem_of_fmap in Hin as ([k' x'] & HL & Hin').
        apply (Forall_forall _ reg) with (x := (k', x')) in Hlt; [|done].
        cbn [snd] in *. lia. }
      split.
      { constructor; [lia|]. apply Forall_fmap, Forall_forall.
        intros [k' x'] Hin.
        apply (Forall_forall _ reg) with (x := (k', x')) in Hlt; [|done].
        cbn [snd] in *. cbn. lia. }
      intros r Hr. apply elem_of_cons in Hr as [->|Hr]; [by left|].
      right. by apply list_elem_of_further.
    + destruct (IH Hlt Hnd) as (IH1 & IH2 & IH3). split.
      { apply NoDup_cons. split; [|done]. intros Hin.
        apply IH3 in Hin as [HL|Hin]; [lia|done]. }
      split; [constructor; [lia|done]|].
      intros r Hr. apply elem_of_cons in Hr as [->|Hr].
      * right. apply list_elem_of_here.
      * apply IH3 in Hr as [->|Hr]; [by left|].
        right. by apply list_elem_of_further.
Qed.

Lemma keeps_apart_copy o n s :
  is_container o = true →
  keeps_apart s
    (with_sounds (dict_alter (with_effects (length (objects s))) n)
       (with_objects (λ h, h ++ [o]) s)).
Proof.
  intros Ho [Hok Hnd]. split; [by apply effects_ok_copy|].
  unfold slot_effects in *. cbn [sounds with_sounds with_objects].
  apply NoDup_alter_effects; [|done].
  apply Forall_forall. intros [k x] Hin. cbn [snd].
  by eapply effects_ok_lt.
Qed.

Ltac apart_side :=
  unfold keeps_apart;
  let Hok := fresh in
  let Hnd := fresh in
  intros [Hok Hnd]; split;
  [ first [ by rewrite effects_ok_alter | by apply effects_ok_alloc
          | by apply effects_ok_insert | exact Hok ]
  | first [ by rewrite slot_effects_alter | exact Hnd ] ].

Lemma keeps_apart_play n : stable keeps_apart (play_sound n).
Proof. unfold play_sound. stable_with fail apart_side. Qed.

Lemma keeps_apart_stop n : stable keeps_apart (stop_sound n).
Proof. unfold stop_sound. stable_with fail apart_side. Qed.

Ltac apart_tac :=
  stable_with
    ltac:(first [ apply keeps_apart_play | apply keeps_apart_stop ])
    apart_side.

Lemma keeps_apart_copy_bind e n (rest : M unit) :
  stable keeps_apart rest →
  stable keeps_apart (r ← py_copy e; sound_setattr n (with_effects r);; rest).
Proof.
  intros Hrest s Hs. unfold exec. run. unfold py_copy. run.
  destruct (py_deref (objects s) e) eqn:Hd; try done; unfold obj_alloc; run;
    apply Hrest; by apply keeps_apart_copy.
Qed.

Lemma keeps_apart_apply kv : stable keeps_apart (apply_settings kv).
Proof.
  destruct kv as [n entry]. unfold apply_settings.
  apply stable_bind; [tc_solve|apart_tac|]. intros reg.
  destruct (dict_mem n reg); [|apart_tac].
  apply stable_bind; [tc_solve|apart_tac|]. intros v.
  apply stable_bind; [tc_solve|apart_tac|]. intros _.
  apply stable_bind; [tc_solve|apart_tac|]. intros e.
  apply keeps_apart_copy_bind. apart_tac.
Qed.

Lemma keeps_apart_call m : stable keeps_apart (call m).
Proof.
  destruct m; unfold call.
  - unfold toggle_sound. apart_tac.
  - apply keeps_apart_play.
  - apply keeps_apart_stop.
  - unfold on_volume_change. apart_tac.
  - unfold update_effect. apart_tac.
  - unfold save_preset. apart_tac.
  - unfold load_preset. apply stable_bind; [tc_solve|apart_tac|]. intros n.
    apply stable_bind; [tc_solve|apart_tac|]. intros ps.
    destruct (_ || _); [apart_tac|].
    apply stable_bind; [tc_solve|apart_tac|]. intros p.
    apply stable_bind; [tc_solve|apart_tac|]. intros items.
    apply stable_for_each; [tc_solve|]. apply keeps_apart_apply.
Qed.

Lemma apart_started files pj now :
  effects_ok (started files pj now) = true
  ∧ NoDup (slot_effects (started files pj now)).
Proof.
  unfold started, init. rewrite exec_bind.
  unfold initialize_sounds, Sound_init, obj_alloc. run. cbn [boot objects].
  rewrite exec_bind, run_modify.
  assert (stable keeps_apart
            (load_sounds;;
             ps ← load_presets; modify (with_presets (λ _, ps));; setup_ui))
    as Hrest.
  { unfold load_sounds, setup_ui, update_preset_list. apart_tac. }
  apply Hrest. split; [reflexivity|].
  apply (bool_decide_unpack _). by vm_compute.
Qed.

Lemma apart_session files pj now l :
  effects_ok (run_session l (started files pj now)) = true
  ∧ NoDup (slot_effects (run_session l (started files pj now))).
Proof.
  unfold run_session.
  pose proof (apart_started files pj now) as H.
  revert H. generalize (started files pj now).
  induction l as [|a l IH]; intros s Hs; [done|].
  cbn [fold_left]. apply IH. destruct a as [m|n c t p|t]; cbn [step].
  - by apply keeps_apart_call.
  - done.
  - done.
Qed.

Lemma NoDup_map_effects_ne (reg : list (string * Sound)) n m xn xm :
  NoDup (map (λ kv, effects (snd kv)) reg) →
  dict_get n reg = Some xn → dict_get m reg = Some xm → n ≠ m →
  effects xn ≠ effects xm.
Proof.
  induction reg as [|[k x] reg IH]; [done|].
  cbn [map snd dict_get]. intros Hnd Hn Hm Hne.
  apply NoDup_cons in Hnd as [Hx Hnd].
  assert (∀ k' x', dict_get k' reg = Some x' →
                   effects x' ∈ map (λ kv, effects (snd kv)) reg) as Hin.
  { intros k' x' H. apply dict_get_Some_elem in H.
    by apply (list_elem_of_fmap_2 (λ kv, effects (snd kv))) in H. }
  destruct (decide (n = k)) as [->|Hnk]; destruct (decide (m = k)) as [->|Hmk].
  - done.
  - injection Hn as <-. intros Heq. apply Hx. rewrite Heq. by eapply Hin.
  - injection Hm as <-. intros Heq. apply Hx. rewrite <- Heq. by eapply Hin.
  - by apply IH.
Qed.

(** X10.  At every point of every session, two different slots refer to
    two different effects objects; so [update_effect] on one slot never
    changes the effects of another slot. *)
Theorem slots_own_their_effects
    (files : list string) (pj : option file) (now : string)
    (l : list action) (n m : string) (xn xm : Sound) :
  let s := run_session l (started files pj now) in
  n ≠ m →
  dict_get n (sounds s) = Some xn →
  dict_get m (sounds s) = Some xm →
  effects xn ≠ effects xm
  ∧ ∀ e v,
      objects (exec (update_effect n e v) s) !! effects xm
      = objects s !! effects xm.
Proof.
  intros s Hne Hn Hm.
  destruct (apart_session files pj now l) as [_ Hnd]. fold s in Hnd.
  assert (effects xn ≠ effects xm) as Hdiff
    by (by eapply NoDup_map_effects_ne).
  split; [done|]. intros e v. apply update_effect_store.
  intros x Hx. congruence.
Qed.

Lemma slots_own_their_effects_witness :
  let s := run_session
             [Call (Toggle "Rain"); Edit "Wet" "" "" ""; Call SavePreset;
              Edit "" "" "" "Wet"; Call LoadPreset]
             (started all_sound_files None "2024-05-01T10:00:00") in
  objects (exec (update_effect "Rain" "reverb" 0.5) s) !! 11
  = objects s !! 11.
Proof.
  pose proof (slots_own_their_effects all_sound_files None
    "2024-05-01T10:00:00"
    [Call (Toggle "Rain"); Edit "Wet" "" "" ""; Call SavePreset;
     Edit "" "" "" "Wet"; Call LoadPreset]
    "Rain" "Coffee Shop"
    (mkSound "sounds/rain.mp3" (PFloat 1) (Some 1) true 10 (Some "Stop"))
    (mkSound "sounds/coffee_shop.mp3" (PFloat 1) None false 11 (Some "Play")))
    as H.
  destruct H as [_ H].
  - done.
  - vm_compute. reflexivity.
  - vm_compute. reflexivity.
  - exact (H "reverb" 0.5%float).
Defined.

(** ** Missing sound files *)

Lemma messages_fold_with_message ws s :
  let s' := fold_left (λ s e, with_message e s) ws s in
  messages s' = messages s ++ ws
  ∧ sounds s' = sounds s ∧ mixer s' = mixer s ∧ objects s' = objects s
  ∧ presets s' = presets s ∧ sound_files s' = sound_files s
  ∧ presets_json s' = presets_json s.
Proof.
  revert s. induction ws as [|w ws IH]; intros s; cbn [fold_left].
  - by rewrite app_nil_r.
  - destruct (IH (with_message w s)) as (-> & -> & -> & -> & -> & -> & ->).
    cbn [messages with_message]. by rewrite <- app_assoc.
Qed.

Lemma run_load_sounds_loop reg s :
  for_each reg
    (λ kv,
       fs ← gets sound_files;
       if bool_decide (filename (snd kv) ∈ fs) then ret tt
       else message (showwarning "File Missing"
                       ("Sound file not found: " ++ filename (snd kv)))) s
  = (Ok tt,
     fold_left (λ s e, with_message e s)
       (missing_warnings (sound_files s) reg) s).
Proof.
  revert s. induction reg as [|[k x] reg IH]; intros s; [done|].
  cbn [for_each]. run. cbn [snd]. unfold missing_warnings.
  rewrite filter_cons. cbn [snd].
  destruct (decide (filename x ∈ sound_files s)) as [Hin|Hin].
  - rewrite bool_decide_eq_true_2 by done. run.
    rewrite decide_False by (intros H; by apply H). apply IH.
  - rewrite bool_decide_eq_false_2 by done. run.
    rewrite decide_True by done. cbn [map fold_left]. apply IH.
Qed.




(** ** The shape of the presets file *)

Lemma dict_get_is_Some {V} k (d : list (string * V)) :
  is_Some (dict_get k d) ↔ k ∈ dict_keys d.
Proof.
  rewrite <- dict_mem_true. unfold dict_mem.
  destruct (dict_get k d); split; intros H;
    first [done | by eexists | by destruct H as [? ?]].
Qed.

Ltac field_in :=
  unfold preset_fields;
  repeat first [ apply list_elem_of_here | apply list_elem_of_further ].

(** The constructor accepts exactly the keyword arguments that name each of
    the five fields once. *)
Lemma Preset_kwargs_is_Some d :
  is_Some (Preset_kwargs d) ↔ dict_keys d ≡ₚ preset_fields.
Proof.
  unfold Preset_kwargs. split.
  - destruct (length d =? 5)%nat eqn:Hlen; [|by intros [? ?]].
    apply Nat.eqb_eq in Hlen. intros Hsome.
    assert (∀ f, f ∈ preset_fields → f ∈ dict_keys d) as Hsub.
    { intros f Hf. apply dict_get_is_Some.
      destruct (dict_get "name" d) eqn:H1; [|by destruct Hsome].
      destruct (dict_get "settings" d) eqn:H2; [|by destruct Hsome].
      destruct (dict_get "category" d) eqn:H3; [|by destruct Hsome].
      destruct (dict_get "tags" d) eqn:H4; [|by destruct Hsome].
      destruct (dict_get "created_at" d) eqn:H5; [|by destruct Hsome].
      unfold preset_fields in Hf.
      repeat (apply elem_of_cons in Hf as [->|Hf]; [by eexists|]).
      by apply elem_of_nil in Hf. }
    symmetry. apply submseteq_length_Permutation.
    + apply NoDup_submseteq; [|done].
      apply (bool_decide_unpack _). by vm_compute.
    + unfold dict_keys. rewrite length_map, Hlen. done.
  - intros Hperm.
    assert (length d = 5%nat) as Hlen.
    { apply Permutation_length in Hperm. unfold dict_keys in Hperm.
      by rewrite length_map in Hperm. }
    rewrite Hlen. cbn [Nat.eqb].
    assert (∀ f, f ∈ preset_fields → is_Some (dict_get f d)) as Hget.
    { intros f Hf. apply dict_get_is_Some. by rewrite Hperm. }
    destruct (Hget "name") as [? ->]; [field_in|].
    destruct (Hget "settings") as [? ->]; [field_in|].
    destruct (Hget "category") as [? ->]; [field_in|].
    destruct (Hget "tags") as [? ->]; [field_in|].
    destruct (Hget "created_at") as [? ->]; [field_in|].
    by eexists.
Qed.

Lemma preset_of_item_cases kv :
  (is_record (snd kv) ∧ ∃ p, ∀ s, preset_of_item kv s = (Ok (fst kv, p), s))
  ∨ (¬ is_record (snd kv)
     ∧ ∃ msg, ∀ s, preset_of_item kv s = (Raise (TypeError msg), s)).
Proof.
  unfold preset_of_item, is_record.
  destruct (snd kv) as [| | | | | |d|]; try (right; split; [tauto|by eexists]).
  destruct (Preset_kwargs d) as [p|] eqn:Hk.
  - left. split; [|by eexists]. apply Preset_kwargs_is_Some. by rewrite Hk.
  - right. split; [|by eexists]. intros H.
    apply Preset_kwargs_is_Some in H. rewrite Hk in H. by destruct H.
Qed.

Lemma map_M_preset_of_item_ok items :
  Forall (λ kv, is_record (snd kv)) items →
  ∃ ps, (∀ s, map_M preset_of_item items s = (Ok ps, s))
        ∧ dict_keys ps = dict_keys items.
Proof.
  induction 1 as [|kv items Hkv _ (ps & IH & Hkeys)].
  - by exists [].
  - destruct (preset_of_item_cases kv) as [(_ & p & Hp)|(Hn & _)]; [|done].
    exists ((fst kv, p) :: ps). split.
    + intros s. cbn [map_M]. run. rewrite Hp. run. rewrite IH. by run.
    + unfold dict_keys in *. cbn [map fst]. by f_equal.
Qed.

Lemma map_M_preset_of_item_bad items :
  Exists (λ kv, ¬ is_record (snd kv)) items →
  ∃ msg, ∀ s, map_M preset_of_item items s = (Raise (TypeError msg), s).
Proof.
  induction items as [|kv items IH]; intros Hex.
  - by apply Exists_nil in Hex.
  - destruct (preset_of_item_cases kv) as [(Hr & p & Hp)|(_ & msg & Hp)].
    + apply Exists_cons in Hex as [Hbad|Hex]; [done|].
      destruct (IH Hex) as [msg Hrun]. exists msg. intros s.
      cbn [map_M]. run. rewrite Hp. run. rewrite Hrun. by run.
    + exists msg. intros s. cbn [map_M]. run. rewrite Hp. by run.
Qed.

Lemma init_until_load_presets s :
  ∃ s1, presets_json s1 = presets_json s
        ∧ init s
          = (ps ← load_presets; modify (with_presets (λ _, ps));; setup_ui) s1.
Proof.
  unfold init. run. unfold initialize_sounds, Sound_init, obj_alloc. run.
  match goal with
  | |- context [load_sounds ?st] =>
      pose proof (run_load_sounds_loop (sounds st) st) as Hls;
      destruct (messages_fold_with_message
                  (missing_warnings (sound_files st) (sounds st)) st)
        as (_ & _ & _ & _ & _ & _ & Hj)
  end.
  eexists. split; [exact Hj|].
  unfold load_sounds at 1. run. rewrite Hls. by run.
Qed.

(** X12.  What [load_presets] does with a file that holds JSON.  When the
    document is an object whose items are all records with exactly the
    five fields (in any order), it returns a presets map with the names of
    the items, in their order.  When some item is not such a record (a
    field is missing, there is one too many, or the item is not an
    object), it raises [TypeError]; when the document is not an object, it
    raises [AttributeError].  These two are not caught: [__init__] fails on
    such a file.  In no case does the state change. *)
Theorem load_presets_on_json (s : AmbientSoundMixer) (doc : pyval) :
  presets_json s = Some (JsonText doc) →
  plain doc = true →
  (∀ items, doc = PDict items →
     (Forall (λ kv, is_record (snd kv)) items →
      ∃ ps, load_presets s = (Ok ps, s) ∧ dict_keys ps = dict_keys items)
     ∧ (Exists (λ kv, ¬ is_record (snd kv)) items →
        ∃ msg, load_presets s = (Raise (TypeError msg), s)
               ∧ fst (init s) = Raise (TypeError msg)))
  ∧ ((∀ items, doc ≠ PDict items) →
     ∃ msg, load_presets s = (Raise (AttributeError msg), s)
            ∧ fst (init s) = Raise (AttributeError msg)).
Proof.
  intros Hfile Hplain.
  destruct (init_until_load_presets s) as (s1 & Hj1 & Hinit).
  rewrite Hfile in Hj1. split.
  - intros items ->. split.
    + intros Hall. destruct (map_M_preset_of_item_ok items Hall)
        as (ps & Hrun & Hkeys).
      exists ps. split; [|done]. unfold load_presets. run.
      rewrite (run_json_load_presets _ _ Hfile). run.
      rewrite run_py_items_dict. run. by rewrite Hrun.
    + intros Hex.
      destruct (map_M_preset_of_item_bad items Hex) as [msg Hrun].
      assert (∀ s0, presets_json s0 = Some (JsonText (PDict items)) →
                load_presets s0 = (Raise (TypeError msg), s0)) as Hload.
      { intros s0 H0. unfold load_presets. run.
        rewrite (run_json_load_presets _ _ H0). run.
        rewrite run_py_items_dict. run. by rewrite Hrun. }
      exists msg. split; [by apply Hload|].
      rewrite Hinit. run. by rewrite (Hload s1 Hj1).
  - intros Hnot.
    assert (∃ msg, ∀ s0, presets_json s0 = Some (JsonText doc) →
              load_presets s0 = (Raise (AttributeError msg), s0))
      as [msg Hload].
    { exists "object has no attribute 'items'". intros s0 H0.
      unfold load_presets. run.
      rewrite (run_json_load_presets _ _ H0). run.
      unfold py_items. run.
      destruct doc; try done; try by run.
      by destruct (Hnot d). }
    exists msg. split; [by apply Hload|].
    rewrite Hinit. run. by rewrite (Hload s1 Hj1).
Qed.

Lemma load_presets_on_json_witness :
  ∃ msg,
    load_presets
      (boot all_sound_files
         (Some (JsonText (PDict [("Rainy", PDict [("name", PStr "Rainy")])])))
         "2024-05-01T10:00:00")
    = (Raise (TypeError msg),
       boot all_sound_files
         (Some (JsonText (PDict [("Rainy", PDict [("name", PStr "Rainy")])])))
         "2024-05-01T10:00:00").
Proof.
  destruct (proj1 (load_presets_on_json
    (boot all_sound_files
       (Some (JsonText (PDict [("Rainy", PDict [("name", PStr "Rainy")])])))
       "2024-05-01T10:00:00")
    (PDict [("Rainy", PDict [("name", PStr "Rainy")])])
    eq_refl eq_refl) _ eq_refl) as [_ H].
  destruct H as (msg & Hmsg & _).
  - apply Exists_cons_hd. cbn. intros Hperm.
    apply Permutation_length in Hperm. done.
  - by exists msg.
Defined.

(** ** The tags of a preset *)













(** ** Saving, reading back and loading a preset *)




(** The loop of [load_preset] on the slot [n]. *)
Lemma for_each_apply_slot s pre post n d x v eff pl :
  NoDup (dict_keys (pre ++ (n, PDict d) :: post)) →
  Forall (λ kv, dict_mem (fst kv) (sounds s) = true →
                entry_ok (objects s) (snd kv) = true) pre →
  dict_get n (sounds s) = Some x →
  dict_get "volume" d = Some v →
  dict_get "effects" d = Some eff →
  dict_get "is_playing" d = Some pl →
  is_container (py_deref (objects s) eff) = true →
  plain pl = true →
  let before := exec (for_each pre apply_settings) s in
  let s' := exec (for_each (pre ++ (n, PDict d) :: post) apply_settings) s in
  ∃ x', dict_get n (sounds s') = Some x'
        ∧ volume x' = v
        ∧ objects s' !! effects x' = Some (py_deref (objects s) eff)
        ∧ is_playing x'
          = if truthy (objects s) pl
            then (if can_play before (with_volume v x) then true
                  else is_playing x)
            else false.
Proof.
  intros Hdup Hpre Hx Hv He Hpl Hc Hplain before s'.
  unfold dict_keys in Hdup. rewrite fmap_app, fmap_cons in Hdup.
  apply NoDup_app in Hdup as (_ & Hnpre & Hdup).
  apply NoDup_cons in Hdup as (Hnpost & _). cbn [fst] in *.
  assert (n ∉ dict_keys pre) as Hn1.
  { intros Hin. apply (Hnpre n Hin). apply list_elem_of_here. }
  destruct (for_each_returns pre s Hpre) as (s1 & Hrun1).
  assert (before = s1) as -> by (subst before; unfold exec; by rewrite Hrun1).
  pose proof (preserves_slot_for_each n pre Hn1 s) as Hx1.
  pose proof (store_grows_for_each pre s) as Hg1.
  unfold same, store_grows, exec in Hx1, Hg1. rewrite Hrun1 in Hx1, Hg1.
  cbn [snd] in Hx1, Hg1. rewrite Hx in Hx1.
  assert (is_container (py_deref (objects s1) eff) = true) as Hc1.
  { by rewrite (py_deref_grows _ _ _ Hg1 Hc). }
  destruct (apply_settings_slot s1 n d x v eff pl Hx1 Hv He Hpl Hc1)
    as (s2 & x' & Hrun2 & Hx2 & Hvol & Hfresh & Hcopy & Hplay).
  assert (s' = exec (for_each post apply_settings) s2) as ->.
  { subst s'. unfold exec. rewrite run_for_each_app, Hrun1.
    cbn [for_each]. run. rewrite Hrun2. run. done. }
  pose proof (preserves_slot_for_each n post Hnpost s2) as Hx3.
  pose proof (store_grows_for_each post s2) as Hg3.
  unfold same, store_grows in Hx3, Hg3.
  exists x'. split; [by rewrite Hx3|]. split; [done|]. split.
  { rewrite (prefix_lookup_Some _ _ _ _ Hcopy Hg3).
    by rewrite (py_deref_grows _ _ _ Hg1 Hc). }
  rewrite Hplay. by rewrite (truthy_plain _ (objects s) _ Hplain).
Qed.

Lemma dict_get_split {V} k (x : V) (d : list (string * V)) :
  dict_get k d = Some x →
  ∃ pre post, d = pre ++ (k, x) :: post ∧ k ∉ dict_keys pre.
Proof.
  induction d as [|[k' x'] d IH]; [done|]. cbn [dict_get].
  case_decide as Hk.
  - intros [= ->]. subst. exists [], d. split; [done|]. apply not_elem_of_nil.
  - intros H. destruct (IH H) as (pre & post & -> & Hpre).
    exists ((k', x') :: pre), post. split; [done|].
    cbn. apply not_elem_of_cons. by split.
Qed.

Lemma settings_from_app r reg1 reg2 :
  settings_from r (reg1 ++ reg2)
  = settings_from r reg1 ++ settings_from (r + length reg1) reg2.
Proof.
  revert r. induction reg1 as [|kv reg1 IH]; intros r.
  - cbn. by rewrite Nat.add_0_r.
  - cbn [app settings_from length]. rewrite IH. do 3 f_equal. lia.
Qed.

Lemma dict_keys_settings_from r reg :
  dict_keys (settings_from r reg) = dict_keys reg.
Proof.
  revert r. induction reg as [|kv reg IH]; intros r; [done|].
  cbn [settings_from]. unfold dict_keys in *. cbn [map fst]. by rewrite IH.
Qed.

(** X15.  Loading a preset right after saving it changes no setting.  In a
    state where the slots have different names and each has its effects
    object: after [save_preset] under a non-empty name, with that name
    selected, [load_preset] leaves every slot with the volume and the
    playing flag it had before the save, and with effects that have the
    entries they had. *)
Theorem save_then_load_restores
    (s : AmbientSoundMixer) (c t : string) (k : string) (x : Sound) :
  preset_name_var s ≠ "" →
  effects_ok s = true →
  NoDup (sound_names s) →
  dict_get k (sounds s) = Some x →
  let s1 := exec save_preset s in
  let s2 := exec load_preset
              (with_entries (preset_name_var s) c t (preset_name_var s) s1) in
  ∃ x', dict_get k (sounds s2) = Some x'
        ∧ volume x' = volume x
        ∧ is_playing x' = is_playing x
        ∧ objects s2 !! effects x' = objects s !! effects x.
Proof.
  intros Hn Hok Hnd Hk s1 s2.
  destruct (run_save_preset s Hn Hok) as (st & Hrun & Hps & Hobj & Hsnd).
  assert (s1 = st) as -> by (subst s1; unfold exec; by rewrite Hrun).
  set (s1' := with_entries (preset_name_var s) c t (preset_name_var s) st)
    in *.
  set (L := length (objects s)) in *.
  destruct (dict_get_split _ _ _ Hk) as (pre & post & Hreg & Hpre).
  assert (Forall (λ kv, is_Some (objects s !! effects (snd kv))) (sounds s))
    as Hsome.
  { apply Forall_forall. intros [k0 x0] Hin.
    destruct (effects_ok_lookup s k0 x0 Hok Hin) as (o & Ho & _).
    by exists o. }
  pose proof (settings_from_Forall2 (objects s) (sounds s) [] Hsome) as HF.
  cbn [length app] in HF. rewrite Nat.add_0_r, <- Hobj in HF. fold L in HF.
  assert (Forall (λ kv, entry_ok (objects st) (snd kv) = true)
            (settings_from L (sounds s))) as Hwf.
  { clear -HF Hok. apply Forall_forall. intros e He.
    apply list_elem_of_lookup in He as [i Hi].
    destruct (Forall2_lookup_r _ _ _ _ _ HF Hi)
      as ([k0 x0] & Hi0 & _ & r & Her & _ & Hr).
    rewrite Her. cbn [entry_ok dict_get]. repeat (case_decide; try done).
    cbn [py_deref plain]. rewrite Hr. cbn [snd].
    apply list_elem_of_lookup_2 in Hi0.
    destruct (effects_ok_lookup s k0 x0 Hok Hi0) as (o & -> & Ho).
    cbn. by rewrite Ho. }
  set (d := [("volume", volume x); ("is_playing", PBool (is_playing x));
             ("effects", PRef (L + length pre))]).
  assert (settings_from L (sounds s)
          = settings_from L pre ++ (k, PDict d)
              :: settings_from (S (L + length pre)) post) as Hsplit.
  { by rewrite Hreg, settings_from_app. }
  assert (length (settings_from L pre) = length pre) as Hlen.
  { pose proof (f_equal length (dict_keys_settings_from L pre)) as H.
    unfold dict_keys in H. by rewrite !length_map in H. }
  assert (objects st !! (L + length pre)%nat = objects s !! effects x) as Hcopy.
  { assert (sounds s !! length pre = Some (k, x)) as H1.
    { rewrite Hreg. by rewrite list_lookup_middle. }
    assert (settings_from L (sounds s) !! length pre = Some (k, PDict d))
      as H2.
    { rewrite Hsplit. by rewrite list_lookup_middle. }
    destruct (Forall2_lookup_lr _ _ _ _ _ _ HF H1 H2)
      as (_ & r & Her & _ & Hr).
    cbn [snd] in Her, Hr. injection Her as <-. exact Hr. }
  rewrite Hsplit in Hwf.
  apply Forall_app in Hwf as [Hwf1 Hwf2].
  apply Forall_cons in Hwf2 as [Hwfk _]. cbn [fst snd] in Hwfk.
  assert (load_preset s1'
          = for_each (settings_from L pre ++ (k, PDict d)
                        :: settings_from (S (L + length pre)) post)
              apply_settings s1') as Hload.
  { rewrite <- Hsplit. eapply run_load_preset.
    - exact Hn.
    - subst s1'. cbn [preset_var presets with_entries].
      rewrite Hps, dict_get_set. by rewrite decide_True.
    - reflexivity. }
  assert (is_container (py_deref (objects s1') (PRef (L + length pre))) = true)
    as Hc.
  { cbn [py_deref]. subst s1'. cbn [objects with_entries]. rewrite Hcopy.
    apply dict_get_Some_elem in Hk.
    destruct (effects_ok_lookup s k x Hok Hk) as (o & -> & Ho). done. }
  destruct (for_each_apply_slot s1' (settings_from L pre)
              (settings_from (S (L + length pre)) post) k d x
              (volume x) (PRef (L + length pre)) (PBool (is_playing x)))
    as (x' & Hx' & Hv' & Ho' & Hp'); try done.
  - rewrite <- Hsplit. by rewrite dict_keys_settings_from.
  - eapply Forall_impl; [exact Hwf1|]. by intros.
  - subst s1'. cbn [sounds with_entries]. by rewrite Hsnd.
  - exists x'. subst s2. unfold exec at 1. unfold exec at 1.
    unfold exec in Hx', Ho'. rewrite Hload.
    split; [exact Hx'|]. split; [done|]. split.
    + rewrite Hp'. unfold truthy. cbn [py_deref].
      destruct (is_playing x); [|done]. by destruct (can_play _ _).
    + rewrite Ho'. cbn [py_deref]. subst s1'. cbn [objects with_entries].
      rewrite Hcopy. apply dict_get_Some_elem in Hk.
      destruct (effects_ok_lookup s k x Hok Hk) as (o & -> & _). done.
Qed.

Lemma save_then_load_restores_witness :
  let s := with_entries "Mix" "" "" ""
             (exec (on_volume_change "Ocean" 25)
                (started all_sound_files None "2024-05-01T10:00:00")) in
  let s2 := exec load_preset
              (with_entries "Mix" "later" "" "Mix" (exec save_preset s)) in
  ∃ x', dict_get "Ocean" (sounds s2) = Some x'
        ∧ volume x' = PFloat 0.25
        ∧ is_playing x' = false.
Proof.
  destruct (save_then_load_restores
    (with_entries "Mix" "" "" ""
       (exec (on_volume_change "Ocean" 25)
          (started all_sound_files None "2024-05-01T10:00:00")))
    "later" "" "Ocean"
    (mkSound "sounds/ocean.mp3" (PFloat 0.25) None false 4 (Some "Play")))
    as (x' & Hx & Hv & Hp & _).
  - done.
  - reflexivity.
  - apply (bool_decide_unpack _). by vm_compute.
  - reflexivity.
  - exists x'. split; [exact Hx|]. split; [exact Hv|exact Hp].
Defined.

(** ** The channel handles stay within the mixer *)

#[global] Instance keeps_channels_preorder : PreOrder keeps_channels.
Proof.
  split.
  - intros s. by split.
  - intros s1 s2 s3 [L12 H12] [L23 H23]. split; [congruence|auto].
Qed.

Lemma channels_ok_ext s s' :
  sounds s' = sounds s → length (mixer s') = length (mixer s) →
  channels_ok s' = channels_ok s.
Proof. intros Hs Hl. unfold channels_ok. by rewrite Hs, Hl. Qed.

Lemma channels_ok_alter f n s :
  (∀ x, channel (f x) = channel x) →
  (∀ x, is_playing (f x) = is_playing x) →
  channels_ok (with_sounds (dict_alter f n) s) = channels_ok s.
Proof.
  intros Hc Hp. unfold channels_ok. cbn [sounds mixer with_sounds].
  induction (sounds s) as [|[k x] reg IH]; [done|].
  cbn [dict_alter]. case_decide; cbn [forallb snd].
  - by rewrite Hc, Hp.
  - by rewrite IH.
Qed.

Lemma channels_ok_alter_good f n s :
  (∀ x, match channel (f x) with
        | Some c => (c <? length (mixer s))%nat
        | None => negb (is_playing (f x))
        end = true) →
  channels_ok s = true →
  channels_ok (with_sounds (dict_alter f n) s) = true.
Proof.
  intros Hf. unfold channels_ok. cbn [sounds mixer with_sounds].
  induction (sounds s) as [|[k x] reg IH]; [done|].
  cbn [dict_alter forallb snd]. intros H. apply andb_prop in H as [Hx Hreg].
  case_decide; cbn [forallb snd].
  - by rewrite Hf, Hreg.
  - by rewrite Hx, IH.
Qed.

Lemma channels_ok_not_playing n s :
  channels_ok s = true →
  channels_ok (with_sounds (dict_alter (with_is_playing false) n) s) = true.
Proof.
  unfold channels_ok. cbn [sounds mixer with_sounds].
  induction (sounds s) as [|[k x] reg IH]; [done|].
  cbn [dict_alter forallb snd]. intros H. apply andb_prop in H as [Hx Hreg].
  case_decide; cbn [forallb snd channel is_playing with_is_playing].
  - rewrite Hreg. destruct (channel x); [by rewrite Hx|done].
  - by rewrite Hx, IH.
Qed.

Ltac channels_side :=
  unfold keeps_channels;
  cbn [mixer with_mixer with_sounds with_message with_objects with_presets
       with_presets_json with_preset_combo with_entries];
  split;
  [ first [ reflexivity | by rewrite length_insert | by rewrite length_alter ]
  | first [ by rewrite channels_ok_alter
          | by apply channels_ok_not_playing
          | by (intros H; erewrite channels_ok_ext;
                [exact H|reflexivity|
                 cbn [mixer with_mixer];
                 first [ by rewrite length_insert
                       | by rewrite length_alter ]])
          | by (intros H; exact H) ] ].

Lemma keeps_channels_stop n : stable keeps_channels (stop_sound n).
Proof. unfold stop_sound. stable_with fail channels_side. Qed.

Lemma dict_alter_alter {V} (f g : V → V) n (d : list (string * V)) :
  dict_alter f n (dict_alter g n d) = dict_alter (λ x, f (g x)) n d.
Proof.
  induction d as [|[k x] d IH]; [done|]. cbn [dict_alter].
  case_decide; cbn [dict_alter].
  - by rewrite decide_True.
  - rewrite decide_False by done. by rewrite IH.
Qed.

Lemma keeps_channels_play n : stable keeps_channels (play_sound n).
Proof.
  intros s.
  destruct (dict_get n (sounds s)) as [x|] eqn:Hn.
  2:{ unfold exec, play_sound. run.
      rewrite (run_sounds_getitem_None _ _ Hn). run. by split. }
  destruct (decide (filename x ∈ sound_files s)) as [Hf|Hf].
  2:{ unfold exec, play_sound. run. rewrite (run_sounds_getitem _ _ _ Hn). run.
      destruct (run_mixer_Sound_missing _ s Hf) as [e ->]. run. by split. }
  destruct (first_idle 0 (mixer s)) as [c|] eqn:Hc.
  2:{ unfold exec, play_sound. run. rewrite (run_sounds_getitem _ _ _ Hn). run.
      rewrite (run_mixer_Sound _ _ Hf). run.
      rewrite run_find_channel, Hc. run. by split. }
  destruct (is_number (volume x)) eqn:Hv.
  - destruct (play_sound_state s n x c Hn Hf Hc Hv)
      as (b & s' & Hrun & Hs & Hm & _).
    unfold exec. rewrite Hrun. cbn [snd].
    assert (length (mixer s') = length (mixer s)) as Hlen.
    { by rewrite Hm, length_alter, length_insert. }
    split; [done|]. intros Hok.
    rewrite (channels_ok_ext
               (with_sounds
                  (dict_alter (λ y, with_button b (with_is_playing true
                                        (with_channel (Some c) y))) n) s)
               s').
    + apply channels_ok_alter_good; [|done]. intros y.
      cbn [channel with_button with_is_playing with_channel].
      apply Nat.ltb_lt. by apply first_idle_lt.
    + cbn [sounds with_sounds]. by rewrite Hs, !dict_alter_alter.
    + done.
  - unfold exec, play_sound. run. rewrite (run_sounds_getitem _ _ _ Hn). run.
    rewrite (run_mixer_Sound _ _ Hf). run.
    rewrite run_find_channel, Hc. run.
    unfold Channel_play, Channel_set_volume. rewrite Hv. run.
    unfold raise. run. cbn [snd]. split.
    + cbn [mixer with_message with_mixer]. by rewrite length_insert.
    + intros H. erewrite channels_ok_ext; [exact H|done|].
      cbn [mixer with_message with_mixer]. by rewrite length_insert.
Qed.

Ltac channels_tac :=
  stable_with
    ltac:(first [ apply keeps_channels_play | apply keeps_channels_stop ])
    channels_side.

Lemma keeps_channels_call m : stable keeps_channels (call m).
Proof.
  destruct m; unfold call.
  - unfold toggle_sound. channels_tac.
  - apply keeps_channels_play.
  - apply keeps_channels_stop.
  - unfold on_volume_change. channels_tac.
  - unfold update_effect. channels_tac.
  - unfold save_preset. channels_tac.
  - unfold load_preset, apply_settings. channels_tac.
Qed.

Lemma channels_started files pj now :
  length (mixer (started files pj now)) = 8%nat
  ∧ channels_ok (started files pj now) = true.
Proof.
  unfold started, init. rewrite exec_bind.
  unfold initialize_sounds, Sound_init, obj_alloc. run. cbn [boot objects].
  rewrite exec_bind, run_modify.
  assert (stable keeps_channels
            (load_sounds;;
             ps ← load_presets; modify (with_presets (λ _, ps));; setup_ui))
    as Hrest.
  { unfold load_sounds, setup_ui, update_preset_list. channels_tac. }
  match goal with
  | |- context [exec ?m ?st] => destruct (Hrest st) as [Hlen Hok]
  end.
  split; [by rewrite Hlen|]. by apply Hok.
Qed.

Lemma channels_session files pj now l :
  length (mixer (run_session l (started files pj now))) = 8%nat
  ∧ channels_ok (run_session l (started files pj now)) = true.
Proof.
  unfold run_session.
  pose proof (channels_started files pj now) as H.
  revert H. generalize (started files pj now).
  induction l as [|a l IH]; intros s Hs; [done|].
  cbn [fold_left]. apply IH. destruct a as [m|n c t p|t]; cbn [step].
  - destruct (keeps_channels_call m s) as [Hlen Hok].
    destruct Hs as [H8 Hc]. split; [congruence|auto].
  - done.
  - done.
Qed.

(** X16.  At every point of every session the mixer has its eight
    channels, every channel handle of a slot is one of them, and a slot
    that is marked as playing has a channel handle. *)
Theorem channel_handles_in_range
    (files : list string) (pj : option file) (now : string)
    (l : list action) (n : string) (x : Sound) :
  let s := run_session l (started files pj now) in
  dict_get n (sounds s) = Some x →
  length (mixer s) = 8%nat
  ∧ (∀ c, channel x = Some c → (c < 8)%nat ∧ is_Some (mixer s !! c))
  ∧ (is_playing x = true → ∃ c, channel x = Some c).
Proof.
  intros s Hn. destruct (channels_session files pj now l) as [H8 Hok].
  fold s in H8, Hok. split; [done|].
  unfold channels_ok in Hok.
  apply dict_get_Some_elem in Hn.
  apply forallb_forall with (x := (n, x)) in Hok; [|by apply list_elem_of_In].
  cbn [snd] in Hok. split.
  - intros c Hc. rewrite Hc in Hok. apply Nat.ltb_lt in Hok.
    split; [lia|]. by apply lookup_lt_is_Some_2.
  - intros Hp. destruct (channel x) as [c|]; [by exists c|].
    by rewrite Hp in Hok.
Qed.

Lemma channel_handles_in_range_witness :
  let s := run_session [Call (Toggle "Forest"); Call (Toggle "Ocean")]
             (started all_sound_files None "2024-05-01T10:00:00") in
  length (mixer s) = 8%nat ∧ is_Some (mixer s !! 1%nat).
Proof.
  intros s.
  destruct (channel_handles_in_range all_sound_files None
              "2024-05-01T10:00:00"
              [Call (Toggle "Forest"); Call (Toggle "Ocean")] "Ocean"
              (mkSound "sounds/ocean.mp3" (PFloat 1) (Some 1) true 4
                       (Some "Stop")))
    as (Hlen & Hc & _).
  - vm_compute. reflexivity.
  - split; [exact Hlen|]. exact (proj2 (Hc 1%nat eq_refl)).
Defined.

(** ** A handle that outlives its sound *)

(** X17.  A slot keeps the handle of the channel it last played on, and
    [stop_sound] and [on_volume_change] act on that channel whatever it
    plays now.  When two different slots hold the handle of the same
    channel (the first was stopped, the second then got the freed
    channel), [stop_sound] on the first makes that channel idle and
    [on_volume_change] on the first sets its volume, while the second slot
    is left as it was, still marked as playing if it was. *)
Theorem stale_handle_reaches_other_slot
    (s : AmbientSoundMixer) (n m : string) (xn xm : Sound) (c : nat)
    (ch : Channel) (v : float) :
  n ≠ m →
  dict_get n (sounds s) = Some xn →
  dict_get m (sounds s) = Some xm →
  channel xn = Some c →
  channel xm = Some c →
  mixer s !! c = Some ch →
  (let s' := exec (stop_sound n) s in
   dict_get m (sounds s') = Some xm
   ∧ mixer s' !! c
     = Some (mkChannel false None (chan_loops ch) (chan_volume ch)))
  ∧ (let s' := exec (on_volume_change n v) s in
     dict_get m (sounds s') = Some xm
     ∧ mixer s' !! c
       = Some (mkChannel (busy ch) (chan_sound ch) (chan_loops ch)
                         (PFloat (v / 100)))).
Proof.
  intros Hne Hn Hm Hcn Hcm Hch. split.
  - intros s'. destruct (stop_sound_state s n xn Hn)
      as (b & s1 & Hrun & Hs & Hmix & _).
    assert (s' = s1) as -> by (subst s'; unfold exec; by rewrite Hrun).
    split.
    + rewrite Hs, dict_get_alter_alter. by rewrite decide_False.
    + rewrite Hmix, Hcn, list_lookup_alter_eq, Hch. done.
  - intros s'. subst s'. unfold exec, on_volume_change. run.
    rewrite (run_sounds_getitem _ _ _ Hn). run. rewrite Hcn.
    unfold Channel_set_volume. cbn [is_number]. run. cbn [snd]. split.
    + cbn [sounds with_mixer with_sounds]. by rewrite dict_get_alter_ne.
    + cbn [mixer with_mixer with_sounds].
      rewrite list_lookup_alter_eq, Hch. done.
Qed.

Lemma stale_handle_reaches_other_slot_witness :
  let s := run_session
             [Call (Toggle "Rain"); Call (Toggle "Rain");
              Call (Toggle "Ocean")]
             (started all_sound_files None "2024-05-01T10:00:00") in
  let s' := exec (stop_sound "Rain") s in
  is_playing <$> dict_get "Ocean" (sounds s') = Some true
  ∧ busy <$> mixer s' !! 0 = Some false.
Proof.
  pose proof (stale_handle_reaches_other_slot
    (run_session
       [Call (Toggle "Rain"); Call (Toggle "Rain"); Call (Toggle "Ocean")]
       (started all_sound_files None "2024-05-01T10:00:00"))
    "Rain" "Ocean"
    (mkSound "sounds/rain.mp3" (PFloat 1) (Some 0) false 0 (Some "Play"))
    (mkSound "sounds/ocean.mp3" (PFloat 1) (Some 0) true 4 (Some "Stop"))
    0 (mkChannel true (Some "sounds/ocean.mp3") (-1) (PFloat 1)) 50) as H.
  destruct H as [[Hm Hc] _].
  - done.
  - vm_compute. reflexivity.
  - vm_compute. reflexivity.
  - reflexivity.
  - reflexivity.
  - vm_compute. reflexivity.
  - split.
    + rewrite Hm. reflexivity.
    + rewrite Hc. reflexivity.
Defined.

(** ** The combo box lists the presets *)

#[global] Instance keeps_combo_preorder : PreOrder keeps_combo.
Proof.
  split.
  - intros s H. exact H.
  - intros s1 s2 s3 H12 H23 H. apply H23, H12, H.
Qed.

Ltac combo_side := unfold keeps_combo; intros H; exact H.

Lemma keeps_combo_play n : stable keeps_combo (play_sound n).
Proof. unfold play_sound. stable_with fail combo_side. Qed.

Lemma keeps_combo_stop n : stable keeps_combo (stop_sound n).
Proof. unfold stop_sound. stable_with fail combo_side. Qed.

Ltac combo_tac :=
  stable_with
    ltac:(first [ apply keeps_combo_play | apply keeps_combo_stop ])
    combo_side.

Lemma keeps_combo_save_preset : stable keeps_combo save_preset.
Proof.
  unfold save_preset.
  apply stable_bind; [tc_solve|combo_tac|]. intros n.
  destruct (nonempty n); [|combo_tac].
  apply stable_bind; [tc_solve|combo_tac|]. intros reg.
  apply stable_bind; [tc_solve|unfold sound_settings; combo_tac|].
  intros data.
  apply stable_bind; [tc_solve|combo_tac|]. intros t.
  apply stable_bind; [tc_solve|combo_tac|]. intros c.
  apply stable_bind; [tc_solve|combo_tac|]. intros now.
  intros s _. unfold exec, save_presets_to_file, update_preset_list. run.
  reflexivity.
Qed.

Lemma keeps_combo_call m : stable keeps_combo (call m).
Proof.
  destruct m; unfold call.
  - unfold toggle_sound. combo_tac.
  - apply keeps_combo_play.
  - apply keeps_combo_stop.
  - unfold on_volume_change. combo_tac.
  - unfold update_effect. combo_tac.
  - apply keeps_combo_save_preset.
  - unfold load_preset, apply_settings. combo_tac.
Qed.

Lemma for_each_setattr_returns (f : Sound → Sound)
    (reg : list (string * Sound)) s :
  ∃ s', for_each reg (λ kv, sound_setattr (fst kv) f) s = (Ok tt, s')
        ∧ presets s' = presets s.
Proof.
  revert s. induction reg as [|kv reg IH]; intros s; [by exists s|].
  cbn [for_each]. run.
  destruct (IH (with_sounds (dict_alter f (fst kv)) s)) as (s' & -> & Hp).
  by exists s'.
Qed.

Lemma setup_ui_combo s :
  preset_combo (exec setup_ui s) = dict_keys (presets (exec setup_ui s)).
Proof.
  unfold exec, setup_ui, update_preset_list. run.
  destruct (for_each_setattr_returns (with_button (Some "Play")) (sounds s) s)
    as (s' & -> & Hp).
  run. reflexivity.
Qed.

Lemma keeps_combo_init : stable keeps_combo init.
Proof.
  unfold init.
  apply stable_bind;
    [tc_solve|unfold initialize_sounds, Sound_init; combo_tac|].
  intros reg.
  apply stable_bind; [tc_solve|combo_tac|]. intros _.
  apply stable_bind; [tc_solve|unfold load_sounds; combo_tac|]. intros _.
  apply stable_bind;
    [tc_solve
    |unfold load_presets, json_load_presets, py_items, preset_of_item;
     combo_tac|].
  intros ps s _. rewrite exec_bind, run_modify. apply setup_ui_combo.
Qed.

Lemma combo_session files pj now l :
  preset_combo (run_session l (started files pj now))
  = dict_keys (presets (run_session l (started files pj now))).
Proof.
  unfold run_session.
  assert (preset_combo (started files pj now)
          = dict_keys (presets (started files pj now))) as H.
  { by apply keeps_combo_init. }
  revert H. generalize (started files pj now).
  induction l as [|a l IH]; intros s Hs; [done|].
  cbn [fold_left]. apply IH. destruct a as [m|n c t p|t]; cbn [step].
  - by apply keeps_combo_call.
  - done.
  - done.
Qed.

(** X18.  At every point of every session the combo box offers exactly the
    names of the in-memory presets map, in its order; the presets map
    itself changes only in [save_preset]. *)
Theorem combo_lists_presets
    (files : list string) (pj : option file) (now : string)
    (l : list action) :
  preset_combo (run_session l (started files pj now))
  = dict_keys (presets (run_session l (started files pj now)))
  ∧ ∀ m s, m ≠ SavePreset → presets (exec (call m) s) = presets s.
Proof.
  split; [apply combo_session|].
  intros m s Hm.
  assert (preserves presets (call m)) as Hp; [|apply Hp].
  destruct m; unfold call; try done.
  - unfold toggle_sound. frame_tac.
  - unfold play_sound. frame_tac.
  - unfold stop_sound. frame_tac.
  - unfold on_volume_change. frame_tac.
  - apply preserves_presets_update_effect.
  - unfold load_preset, apply_settings. frame_tac.
Qed.

Lemma combo_lists_presets_witness :
  presets (exec (call LoadPreset) evening_session) = presets evening_session.
Proof.
  apply (proj2 (combo_lists_presets [] None "" []) LoadPreset evening_session).
  discriminate.
Defined.

(** ** A preset that cannot be applied *)

(** X19.  [load_preset] is not all or nothing.  When the settings of the
    selected preset are not a dictionary, it raises [AttributeError] and
    changes nothing.  When they are, and the entry of a slot of the
    registry is a dictionary without a volume while the entries before it
    are well formed, it raises [KeyError] for "volume": the entries before
    have been applied, and this entry and the ones after it have not. *)
Theorem load_preset_stops_at_bad_entry
    (s : AmbientSoundMixer) (p : Preset) :
  preset_var s ≠ "" →
  dict_get (preset_var s) (presets s) = Some p →
  (plain (settings p) = true → (∀ items, settings p ≠ PDict items) →
   ∃ msg, load_preset s = (Raise (AttributeError msg), s))
  ∧ (∀ pre post n d,
       settings p = PDict (pre ++ (n, PDict d) :: post) →
       Forall (λ kv, dict_mem (fst kv) (sounds s) = true →
                     entry_ok (objects s) (snd kv) = true) pre →
       n ∈ sound_names s →
       dict_get "volume" d = None →
       load_preset s
       = (Raise (KeyError "volume"), exec (for_each pre apply_settings) s)).
Proof.
  intros Hne Hp. split.
  - intros Hplain Hnot. unfold load_preset. run.
    destruct (preset_var s) as [|a nm] eqn:Hname; [done|].
    cbn [nonempty negb orb]. unfold dict_mem. rewrite Hp. cbn [negb].
    unfold presets_getitem. run. rewrite Hp. run.
    unfold py_items. run.
    destruct (settings p) as [| | | | | |items|] eqn:Hs; try done;
      try (run; by eexists).
    by destruct (Hnot items).
  - intros pre post n d Hset Hpre Hn Hv.
    rewrite (run_load_preset _ _ _ Hne Hp Hset), run_for_each_app.
    destruct (for_each_returns pre s Hpre) as (s1 & Hrun1).
    unfold exec. rewrite Hrun1. cbn [snd for_each]. run.
    pose proof (stable_for_each (same sound_names) pre apply_settings
                  preserves_names_apply s) as Hnames.
    unfold same, exec in Hnames. rewrite Hrun1 in Hnames. cbn [snd] in Hnames.
    unfold apply_settings at 1. run.
    assert (dict_mem n (sounds s1) = true) as ->.
    { apply dict_mem_true. unfold sound_names in *. by rewrite Hnames. }
    unfold py_getitem. run. cbn [py_deref]. rewrite Hv. by run.
Qed.

Lemma load_preset_stops_at_bad_entry_witness :
  let file := JsonText (PDict
    [("Odd", PDict [("name", PStr "Odd");
                    ("settings", PDict [("Rain", PDict [])]);
                    ("category", PStr ""); ("tags", PList []);
                    ("created_at", PStr "")])]) in
  let s := run_session [Edit "" "" "" "Odd"]
             (started all_sound_files (Some file) "2024-05-01T10:00:00") in
  load_preset s = (Raise (KeyError "volume"), s).
Proof.
  intros file s.
  apply (proj2 (load_preset_stops_at_bad_entry s
                  (mkPreset (PStr "Odd") (PDict [("Rain", PDict [])])
                     (PStr "") (PList []) (PStr ""))
                  ltac:(done) eq_refl) [] [] "Rain" []).
  - reflexivity.
  - constructor.
  - vm_compute. apply list_elem_of_here.
  - reflexivity.
Defined.

(** ** The state after [__init__] *)

Lemma slots_unlabelled_alter b n s :
  slots_unlabelled (with_sounds (dict_alter (with_button b) n) s)
  = slots_unlabelled s.
Proof.
  unfold slots_unlabelled. cbn [sounds with_sounds].
  induction (sounds s) as [|[k x] reg IH]; [done|].
  cbn [dict_alter]. case_decide; cbn [map fst snd]; [done|]. by rewrite IH.
Qed.

Lemma preserves_slots_setup_load :
  preserves (λ s, (slots_unlabelled s, objects s, mixer s))
    (load_sounds;;
     ps ← load_presets; modify (with_presets (λ _, ps));; setup_ui).
Proof.
  unfold load_sounds, load_presets, json_load_presets, py_items,
    preset_of_item, setup_ui, update_preset_list.
  stable_with fail
    ltac:(first [ reflexivity
                | unfold same; cbn [objects mixer with_sounds];
                  by rewrite slots_unlabelled_alter ]).
Qed.

Lemma started_slots files pj now :
  let s := started files pj now in
  (slots_unlabelled s, objects s, mixer s)
  = ([("Rain", mkSound "sounds/rain.mp3" (PFloat 1) None false 0 None);
      ("Coffee Shop",
       mkSound "sounds/coffee_shop.mp3" (PFloat 1) None false 1 None);
      ("White Noise",
       mkSound "sounds/white_noise.mp3" (PFloat 1) None false 2 None);
      ("Forest", mkSound "sounds/forest.mp3" (PFloat 1) None false 3 None);
      ("Ocean", mkSound "sounds/ocean.mp3" (PFloat 1) None false 4 None)],
     replicate 5 default_effects, replicate 8 idle_channel).
Proof.
  cbv zeta. unfold started, init. rewrite exec_bind.
  unfold initialize_sounds, Sound_init, obj_alloc. run. cbn [boot objects].
  rewrite exec_bind, run_modify.
  rewrite preserves_slots_setup_load. reflexivity.
Qed.

(** X20.  Whatever the sound files, [presets.json] and the clock are, and
    whether [__init__] returns or fails on the presets file: after
    [__init__] every slot is at volume 1.0, is not playing and has no
    channel; it has an effects dictionary of its own with reverb 0.0 and
    the three equalizer bands at 1.0; and the eight channels of the mixer
    are idle. *)
Theorem initial_state
    (files : list string) (pj : option file) (now : string)
    (n : string) (x : Sound) :
  let s := started files pj now in
  dict_get n (sounds s) = Some x →
  volume x = PFloat 1
  ∧ is_playing x = false
  ∧ channel x = None
  ∧ objects s !! effects x = Some default_effects
  ∧ mixer s = replicate 8 idle_channel
  ∧ NoDup (slot_effects s).
Proof.
  intros s Hn.
  pose proof (started_slots files pj now) as H. cbv zeta in H. fold s in H.
  injection H as Hslots Hobj Hmix.
  apply dict_get_Some_elem in Hn.
  apply (list_elem_of_fmap_2 (λ kv, (fst kv, with_button None (snd kv))))
    in Hn.
  change ((n, with_button None x) ∈ slots_unlabelled s) in Hn.
  rewrite Hslots in Hn. rewrite Hobj, Hmix.
  assert (volume x = PFloat 1 ∧ is_playing x = false ∧ channel x = None
          ∧ replicate 5 default_effects !! effects x = Some default_effects)
    as (Hv & Hp & Hc & He).
  { repeat (apply elem_of_cons in Hn as [[= _ _ Hv Hc Hp He]|Hn];
            [by rewrite Hv, Hc, Hp, He|]).
    by apply elem_of_nil in Hn. }
  split_and!; try done. apply apart_started.
Qed.

Lemma initial_state_witness :
  let s := started [] (Some (NotJson "{")) "2024-05-01T10:00:00" in
  objects s !! 4 = Some default_effects
  ∧ mixer s = replicate 8 idle_channel.
Proof.
  pose proof (initial_state [] (Some (NotJson "{")) "2024-05-01T10:00:00"
    "Ocean" (mkSound "sounds/ocean.mp3" (PFloat 1) None false 4 (Some "Play"))
    eq_refl) as (_ & _ & _ & Ho & Hm & _).
  split; [exact Ho|exact Hm].
Defined.

(** ** Saving never fails *)

(** X21.  At every point of every session [save_preset] returns without
    raising: every slot has an effects object to copy.  (Writing the file
    is taken to succeed.) *)
Theorem save_preset_never_raises
    (files : list string) (pj : option file) (now : string)
    (l : list action) :
  ∃ s', save_preset (run_session l (started files pj now)) = (Ok tt, s').
Proof.
  pose proof (effects_ok_session files pj now l) as Hok.
  generalize dependent (run_session l (started files pj now)). intros s Hok.
  destruct (decide (preset_name_var s = "")) as [He|Hne].
  - unfold save_preset. run. rewrite He. cbn [nonempty]. run. by eexists.
  - destruct (run_save_preset s Hne Hok) as (s1 & Hrun & _). by exists s1.
Qed.

(** ** The buttons show what the slots do *)

#[global] Instance keeps_buttons_preorder : PreOrder keeps_buttons.
Proof.
  split.
  - intros s H. exact H.
  - intros s1 s2 s3 H12 H23 H. apply H23, H12, H.
Qed.

Lemma buttons_ok_alter f n s :
  (∀ x, button (f x) = button x) →
  (∀ x, is_playing (f x) = is_playing x) →
  buttons_ok s → buttons_ok (with_sounds (dict_alter f n) s).
Proof.
  intros Hb Hp Hok k y. cbn [sounds with_sounds]. rewrite dict_get_alter.
  case_decide; [subst k|by apply Hok].
  destruct (dict_get n (sounds s)) as [x|] eqn:Hn; [|done].
  intros [= <-]. rewrite Hb, Hp. by apply (Hok n).
Qed.

Lemma run_button_configure n label s x l0 :
  dict_get n (sounds s) = Some x →
  button x = Some l0 →
  button_configure n label s
  = (Ok tt, with_sounds (dict_alter (with_button (Some label)) n) s).
Proof.
  intros Hn Hb. unfold button_configure. run.
  rewrite (run_sounds_getitem _ _ _ Hn). run. rewrite Hb. by run.
Qed.

Lemma buttons_ok_relabel (b : bool) (g : Sound → Sound) n s s' :
  (∀ x, is_playing (g x) = b) →
  sounds s'
  = dict_alter (with_button (Some (if b then "Stop" else "Play"))) n
      (dict_alter g n (sounds s)) →
  buttons_ok s → buttons_ok s'.
Proof.
  intros Hg Hs Hok k y. rewrite Hs, dict_get_alter_alter.
  case_decide; [subst k|by apply Hok].
  destruct (dict_get n (sounds s)) as [x|] eqn:Hn; [|done].
  intros [= <-]. cbn [button is_playing with_button]. by rewrite Hg.
Qed.

Lemma keeps_buttons_stop n : stable keeps_buttons (stop_sound n).
Proof.
  intros s Hok.
  destruct (dict_get n (sounds s)) as [x|] eqn:Hn.
  2:{ unfold exec, stop_sound. run.
      rewrite (run_sounds_getitem_None _ _ Hn). by run. }
  pose proof (Hok n x Hn) as Hb.
  unfold exec, stop_sound. run. rewrite (run_sounds_getitem _ _ _ Hn). run.
  destruct (channel x) as [c|]; unfold Channel_stop; run.
  - erewrite run_button_configure;
      [|cbn [sounds with_sounds with_mixer];
        by rewrite dict_get_alter_eq, Hn
       |exact Hb].
    run. cbn [snd].
    by apply (buttons_ok_relabel false (with_is_playing false) n s).
  - erewrite run_button_configure;
      [|cbn [sounds with_sounds]; by rewrite dict_get_alter_eq, Hn
       |exact Hb].
    run. cbn [snd].
    by apply (buttons_ok_relabel false (with_is_playing false) n s).
Qed.

Lemma keeps_buttons_play n : stable keeps_buttons (play_sound n).
Proof.
  intros s Hok.
  destruct (dict_get n (sounds s)) as [x|] eqn:Hn.
  2:{ unfold exec, play_sound. run.
      rewrite (run_sounds_getitem_None _ _ Hn). by run. }
  pose proof (Hok n x Hn) as Hb.
  destruct (decide (filename x ∈ sound_files s)) as [Hf|Hf].
  2:{ unfold exec, play_sound. run. rewrite (run_sounds_getitem _ _ _ Hn). run.
      destruct (run_mixer_Sound_missing _ s Hf) as [e ->]. by run. }
  unfold exec, play_sound. run. rewrite (run_sounds_getitem _ _ _ Hn). run.
  rewrite (run_mixer_Sound _ _ Hf). run. rewrite run_find_channel.
  destruct (first_idle 0 (mixer s)) as [c|] eqn:Hc; run; [|done].
  unfold Channel_play. run.
  destruct (is_number (volume x)) eqn:Hv.
  - rewrite (run_Channel_set_volume _ _ _ Hv). run.
    erewrite run_button_configure;
      [|cbn [sounds with_sounds with_mixer];
        by rewrite !dict_get_alter_eq, Hn
       |exact Hb].
    run. cbn [snd].
    apply (buttons_ok_relabel true
             (λ y, with_is_playing true (with_channel (Some c) y)) n s);
      [done| |done].
    cbn [sounds with_sounds with_mixer]. by rewrite !dict_alter_alter.
  - unfold Channel_set_volume. rewrite Hv. unfold raise. by run.
Qed.

Ltac buttons_side :=
  unfold keeps_buttons;
  first [ by (apply buttons_ok_alter; intros [])
        | by (intros H; exact H) ].

Ltac buttons_tac :=
  stable_with
    ltac:(first [ apply keeps_buttons_play | apply keeps_buttons_stop ])
    buttons_side.

Lemma keeps_buttons_call m : stable keeps_buttons (call m).
Proof.
  destruct m; unfold call.
  - unfold toggle_sound. buttons_tac.
  - apply keeps_buttons_play.
  - apply keeps_buttons_stop.
  - unfold on_volume_change. buttons_tac.
  - unfold update_effect. buttons_tac.
  - unfold save_preset. buttons_tac.
  - unfold load_preset, apply_settings. buttons_tac.
Qed.

(** [setup_ui] gives every slot a button that shows "Play". *)
Lemma for_each_buttons (reg : list (string * Sound)) (b : string)
    (done_ : list string) s :
  (∀ n x, n ∈ done_ → dict_get n (sounds s) = Some x → button x = Some b) →
  ∃ s', for_each reg (λ kv, sound_setattr (fst kv) (with_button (Some b))) s
        = (Ok tt, s')
        ∧ slots_unlabelled s' = slots_unlabelled s
        ∧ ∀ n x, n ∈ done_ ++ dict_keys reg →
                 dict_get n (sounds s') = Some x → button x = Some b.
Proof.
  revert done_ s. induction reg as [|[k v] reg IH]; intros done_ s Hdone.
  - exists s. rewrite app_nil_r. by repeat split.
  - cbn [for_each fst]. run.
    destruct (IH (done_ ++ [k])
                (with_sounds (dict_alter (with_button (Some b)) k) s))
      as (s' & Hrun & Hsl & Hb).
    { intros n x Hn. cbn [sounds with_sounds]. rewrite dict_get_alter.
      case_decide; [subst n|].
      - destruct (dict_get k (sounds s)); [|done]. by intros [= <-].
      - apply elem_of_app in Hn as [Hn|Hn]; [by apply Hdone|].
        by apply list_elem_of_singleton in Hn. }
    exists s'. split; [done|]. split.
    + by rewrite Hsl, slots_unlabelled_alter.
    + intros n x Hn. apply Hb. cbn [dict_keys map fst] in Hn.
      by rewrite <- app_assoc.
Qed.

Lemma setup_ui_buttons s :
  ∃ s', setup_ui s = (Ok tt, s')
        ∧ slots_unlabelled s' = slots_unlabelled s
        ∧ ∀ n x, dict_get n (sounds s') = Some x → button x = Some "Play".
Proof.
  unfold setup_ui, update_preset_list. run.
  destruct (for_each_buttons (sounds s) "Play" [] s) as (s' & -> & Hsl & Hb).
  { intros n x Hn. by apply elem_of_nil in Hn. }
  run. eexists. split; [reflexivity|]. split; [done|].
  intros n x Hn. cbn [sounds with_entries with_preset_combo] in Hn.
  apply (Hb n x); [|done]. cbn [app].
  assert (dict_keys (sounds s') = dict_keys (sounds s)) as <-.
  { pose proof (f_equal (map fst) Hsl) as H. unfold slots_unlabelled in H.
    by rewrite !map_map in H. }
  apply dict_get_Some_elem in Hn.
  by apply (list_elem_of_fmap_2 fst) in Hn.
Qed.

Lemma buttons_started files pj now :
  fst (init (boot files pj now)) = Ok tt →
  buttons_ok (started files pj now).
Proof.
  intros Hinit n x Hn.
  assert (is_playing x = false) as ->.
  { pose proof (started_slots files pj now) as H. cbv zeta in H.
    injection H as Hslots _ _.
    apply dict_get_Some_elem in Hn.
    apply (list_elem_of_fmap_2 (λ kv, (fst kv, with_button None (snd kv))))
      in Hn.
    change ((n, with_button None x) ∈ slots_unlabelled (started files pj now))
      in Hn.
    rewrite Hslots in Hn.
    repeat (apply elem_of_cons in Hn as [[= _ _ _ _ Hp _]|Hn]; [done|]).
    by apply elem_of_nil in Hn. }
  revert Hn. unfold started, exec.
  destruct (init_until_load_presets (boot files pj now)) as (s1 & _ & Hrun).
  rewrite Hrun in Hinit |- *. revert Hinit. run.
  destruct (load_presets s1) as [[ps|e] s2]; run; [|done].
  destruct (setup_ui_buttons (with_presets (λ _, ps) s2))
    as (s3 & -> & _ & Hb).
  intros _ Hn. by apply (Hb n).
Qed.

Lemma buttons_session files pj now l :
  fst (init (boot files pj now)) = Ok tt →
  buttons_ok (run_session l (started files pj now)).
Proof.
  intros Hinit. unfold run_session.
  pose proof (buttons_started files pj now Hinit) as H.
  revert H. generalize (started files pj now).
  induction l as [|a l IH]; intros s Hs; [done|].
  cbn [fold_left]. apply IH. destruct a as [m|n c t p|t]; cbn [step].
  - by apply keeps_buttons_call.
  - done.
  - done.
Qed.

(** X22.  When [__init__] has returned, at every point of every session
    every slot has its button, and the button shows "Stop" exactly while
    the slot is marked as playing and "Play" otherwise: also after a
    [play_sound] that found no file or no channel, and after
    [load_preset]. *)
Theorem button_shows_state
    (files : list string) (pj : option file) (now : string)
    (l : list action) (n : string) (x : Sound) :
  fst (init (boot files pj now)) = Ok tt →
  let s := run_session l (started files pj now) in
  dict_get n (sounds s) = Some x →
  button x = Some (if is_playing x then "Stop" else "Play").
Proof.
  intros Hinit s Hn. by apply (buttons_session files pj now l Hinit n).
Qed.

Lemma button_shows_state_witness :
  let s := run_session [Call (Toggle "Rain"); Call (Play "Forest")]
             (started ["sounds/rain.mp3"] None "2024-05-01T10:00:00") in
  dict_get "Forest" (sounds s)
  = Some (mkSound "sounds/forest.mp3" (PFloat 1) None false 3 (Some "Play"))
  ∧ button (mkSound "sounds/rain.mp3" (PFloat 1) (Some 0%nat) true 0
                    (Some "Stop"))
    = Some "Stop".
Proof.
  split; [vm_compute; reflexivity|].
  apply (button_shows_state ["sounds/rain.mp3"] None "2024-05-01T10:00:00"
           [Call (Toggle "Rain"); Call (Play "Forest")] "Rain"
           (mkSound "sounds/rain.mp3" (PFloat 1) (Some 0%nat) true 0
                    (Some "Stop"))).
  - vm_compute. reflexivity.
  - vm_compute. reflexivity.
Defined.
